(** * auteur: the HTML tools of the blog generator (html_tools.py)

    A shallow embedding of [html_tools.py]: Python strings are lists of
    characters, the calls into [re] are a small backtracking matcher for the
    constructs the module's patterns use, exceptions are an explicit result
    type, and the two mutations of the module (the [title] field set by
    [generate_post], the in-place [listing.reverse()] of
    [create_article_previews]) are threaded as explicit state. *)

From Stdlib Require Import String Ascii List Arith ZArith Lia Bool Permutation.
Import ListNotations.

(** ** Python values *)

(** A Python [str], as the sequence of its characters, a character being a
    code point below 256.  All markers and templates of the module are
    ASCII. *)
Definition str := list ascii.

(** A string literal of the source. *)
Definition lit (s : string) : str := list_ascii_of_string s.

(** The exceptions the module can raise. *)
Inductive exn : Type :=
| IndexError                  (* subscript out of range *)
| ValueError (msg : string)   (* [str.index] miss, or the explicit [raise] *)
| AttributeError              (* attribute access on [None] *)
| FormatError (msg : string). (* anything [str.format] raises on a loaded template *)

Inductive result (A : Type) : Type :=
| Ok (a : A)
| Raise (e : exn).
Arguments Ok {A} a.
Arguments Raise {A} e.

Definition bind {A B : Type} (r : result A) (k : A -> result B) : result B :=
  match r with
  | Ok a => k a
  | Raise e => Raise e
  end.

Notation "x <- r ;; k" := (bind r (fun x => k))
  (at level 61, r at next level, right associativity).

(** ** The [str] methods the module calls *)

Module PyStr.

(** [s.startswith(t)] *)
Fixpoint startswith (t s : str) : bool :=
  match t, s with
  | [], _ => true
  | _ :: _, [] => false
  | a :: t', b :: s' => if Ascii.eqb a b then startswith t' s' else false
  end.

(** [s.find(t)]: index of the first occurrence, [None] for Python's -1. *)
Fixpoint find (t s : str) : option nat :=
  if startswith t s then Some 0
  else match s with
       | [] => None
       | _ :: s' => option_map S (find t s')
       end.

(** [s.index(t)] *)
Definition index (t s : str) : result nat :=
  match find t s with
  | Some k => Ok k
  | None => Raise (ValueError "substring not found")
  end.

(** [s.replace(old, new)] for a non-empty [old]: the occurrences are taken
    left to right and do not overlap.  Each round consumes at least one
    character, so [S (length s)] rounds are enough. *)
Fixpoint replace_from (fuel : nat) (old new s : str) : str :=
  match fuel with
  | 0 => s
  | S fuel' =>
      match find old s with
      | None => s
      | Some k =>
          firstn k s ++ new ++ replace_from fuel' old new (skipn (k + length old) s)
      end
  end.

Definition replace (old new s : str) : str :=
  replace_from (S (length s)) old new s.

(** [s.split(sep)] for a non-empty [sep]. *)
Fixpoint split_from (fuel : nat) (sep s : str) : list str :=
  match fuel with
  | 0 => [s]
  | S fuel' =>
      match find sep s with
      | None => [s]
      | Some k => firstn k s :: split_from fuel' sep (skipn (k + length sep) s)
      end
  end.

Definition split (sep s : str) : list str :=
  split_from (S (length s)) sep s.

(** [sep.join(l)] *)
Fixpoint join (sep : str) (l : list str) : str :=
  match l with
  | [] => []
  | [x] => x
  | x :: l' => x ++ sep ++ join sep l'
  end.

(** [c.isspace()], which is also what [strip] removes and what [\s]
    matches: tab, newline, vertical tab, form feed, carriage return, the four
    separators 0x1c-0x1f, the space, and below 256 also the next-line
    character 0x85 and the no-break space 0xa0. *)
Definition isspace (c : ascii) : bool :=
  let n := nat_of_ascii c in
  ((9 <=? n) && (n <=? 13)) || ((28 <=? n) && (n <=? 32))
  || (n =? 133) || (n =? 160).

Fixpoint lstrip (s : str) : str :=
  match s with
  | c :: s' => if isspace c then lstrip s' else s
  | [] => []
  end.

Definition rstrip (s : str) : str := rev (lstrip (rev s)).

(** [s.strip()] *)
Definition strip (s : str) : str := rstrip (lstrip s).

(** [s[0]] *)
Definition head (s : str) : result ascii :=
  match s with
  | c :: _ => Ok c
  | [] => Raise IndexError
  end.

(** [s[::-1]] *)
Definition reversed (s : str) : str := rev s.

(** [s[:-k]] for [k >= 0]: [-0] is [0], so [s[:-0]] is empty. *)
Definition slice_to_neg (s : str) (k : nat) : str :=
  match k with
  | 0 => []
  | S _ => firstn (length s - k) s
  end.

End PyStr.

(** ** The fragment of [re] the module's patterns use *)

Module Re.

(** A class of single characters. *)
Inductive cclass : Type :=
| Dot (dotall : bool)   (* [.]; matches a newline only under [re.DOTALL] *)
| Space                 (* [\s] *)
| NonSpace.             (* [\S] *)

Definition newline : ascii := ascii_of_nat 10.

Definition cmatch (c : cclass) (a : ascii) : bool :=
  match c with
  | Dot dotall => dotall || negb (Ascii.eqb a newline)
  | Space => PyStr.isspace a
  | NonSpace => negb (PyStr.isspace a)
  end.

(** The pieces a pattern is a sequence of. *)
Inductive item : Type :=
| Lit (t : str)            (* literal text *)
| One (c : cclass)         (* one character of the class *)
| StarGreedy (c : cclass)  (* [c*] *)
| PlusLazy (c : cclass).   (* [c+?] *)

Definition pattern := list item.

Fixpoint strip_prefix (t s : str) : option str :=
  match t, s with
  | [], _ => Some s
  | _ :: _, [] => None
  | a :: t', b :: s' => if Ascii.eqb a b then strip_prefix t' s' else None
  end.

(** [c*] followed by the continuation [k]: one more character first. *)
Fixpoint star_greedy (c : cclass) (k : str -> option str) (s : str) : option str :=
  match s with
  | a :: s' =>
      if cmatch c a then
        match star_greedy c k s' with
        | Some r => Some r
        | None => k s
        end
      else k s
  | [] => k s
  end.

(** [c*?] followed by [k]: the continuation first. *)
Fixpoint star_lazy (c : cclass) (k : str -> option str) (s : str) : option str :=
  match k s with
  | Some r => Some r
  | None =>
      match s with
      | a :: s' => if cmatch c a then star_lazy c k s' else None
      | [] => None
      end
  end.

(** Backtracking match of [p] at the start of [s]; the result is what is
    left of [s] after the match.  The alternatives are tried in the order
    of [re]: a greedy star takes one more character first, a lazy plus takes
    its one compulsory character and then tries the rest of the pattern
    first. *)
Fixpoint match_here (p : pattern) (s : str) {struct p} : option str :=
  match p with
  | [] => Some s
  | Lit t :: p' =>
      match strip_prefix t s with
      | Some s' => match_here p' s'
      | None => None
      end
  | One c :: p' =>
      match s with
      | a :: s' => if cmatch c a then match_here p' s' else None
      | [] => None
      end
  | StarGreedy c :: p' => star_greedy c (match_here p') s
  | PlusLazy c :: p' =>
      match s with
      | a :: s' => if cmatch c a then star_lazy c (match_here p') s' else None
      | [] => None
      end
  end.

(** The text matched, given what was left. *)
Definition matched (s rest : str) : str := firstn (length s - length rest) s.

(** [re.search(p, s)]: the match at the leftmost position that has one, as
    the start index and the text of [group(0)]. *)
Fixpoint search (p : pattern) (s : str) : option (nat * str) :=
  match match_here p s with
  | Some rest => Some (0, matched s rest)
  | None =>
      match s with
      | [] => None
      | _ :: s' =>
          match search p s' with
          | Some (k, m) => Some (S k, m)
          | None => None
          end
      end
  end.

(** [group(0)] of [re.search], [None] when there is no match. *)
Definition search_group (p : pattern) (s : str) : option str :=
  option_map snd (search p s).

(** [re.match(p, s)] *)
Definition match_ (p : pattern) (s : str) : option str :=
  option_map (matched s) (match_here p s).

(** [re.sub(p, repl, s)] for a pattern that has no empty match (each pattern
    of the module starts with a literal). *)
Fixpoint sub_from (fuel : nat) (p : pattern) (repl s : str) : str :=
  match fuel with
  | 0 => s
  | S fuel' =>
      match search p s with
      | None => s
      | Some (k, m) =>
          firstn k s ++ repl ++ sub_from fuel' p repl (skipn (k + length m) s)
      end
  end.

Definition sub (p : pattern) (repl s : str) : str :=
  sub_from (S (length s)) p repl s.

(** The language of a pattern: the texts it can match, whatever the order
    in which the matcher tries them. *)
Fixpoint matches (p : pattern) (m : str) : Prop :=
  match p with
  | [] => m = []
  | Lit t :: p' => exists m', m = t ++ m' /\ matches p' m'
  | One c :: p' =>
      exists a m', m = a :: m' /\ cmatch c a = true /\ matches p' m'
  | StarGreedy c :: p' =>
      exists w m', m = w ++ m' /\ forallb (cmatch c) w = true /\ matches p' m'
  | PlusLazy c :: p' =>
      exists a w m', m = a :: w ++ m' /\ cmatch c a = true
                     /\ forallb (cmatch c) w = true /\ matches p' m'
  end.

End Re.

(** ** The fragment of [pathlib] behind [Path('../') / target] *)

Module Path.

(** A pure POSIX path: its root (empty, [/] or [//]) and its components. *)
Record t : Type := mk { root : str; parts : list str }.

Definition slash : ascii := "/"%char.

Fixpoint lstrip_sep (s : str) : str :=
  match s with
  | c :: s' => if Ascii.eqb c slash then lstrip_sep s' else s
  | [] => []
  end.

(** The root of one argument and what follows it: exactly two leading
    slashes are kept as the root [//], any other number is the root [/]. *)
Definition splitroot (part : str) : str * str :=
  let rel := lstrip_sep part in
  match length part - length rel with
  | 0 => ([], rel)
  | 2 => ([slash; slash], rel)
  | _ => ([slash], rel)
  end.

Definition str_eqb (a b : str) : bool :=
  if list_eq_dec Ascii.ascii_dec a b then true else false.

(** The components of a relative part: empty ones and [.] are dropped. *)
Definition components (rel : str) : list str :=
  filter (fun x => negb (str_eqb x []) && negb (str_eqb x (lit ".")))
         (PyStr.split [slash] rel).

(** [Path(s)] *)
Definition parse (s : str) : t :=
  let '(r, rel) := splitroot s in mk r (components rel).

(** [p / s]: an argument with a root replaces what came before it. *)
Definition truediv (p : t) (s : str) : t :=
  let q := parse s in
  match root q with
  | [] => mk (root p) (parts p ++ parts q)
  | _ :: _ => q
  end.

(** [str(p)] *)
Definition to_str (p : t) : str :=
  match root p ++ PyStr.join [slash] (parts p) with
  | [] => lit "."
  | s => s
  end.

End Path.

(** ** Data model *)

(** [file_tools.Article], by the fields its constructor takes
    ([ArticlePreview.__init__] passes them in this order). *)
Record Article : Type := mkArticle {
  source : str;
  target : str;
  pub_date : option str;
  html : str;
  markdown : str;
  title : option str
}.

(** [article.title = t] *)
Definition set_title (a : Article) (t : str) : Article :=
  mkArticle (source a) (target a) (pub_date a) (html a) (markdown a) (Some t).

(** [ArticlePreview]: the fields of the article it was built from, copied by
    [super().__init__], and the two fields of its own. *)
Record ArticlePreview : Type := mkArticlePreview {
  preview_article : Article;
  intro_text : str;
  first_photo : option str
}.

(** What [get_configuration()] returns. *)
Record Configuration : Type := mkConfiguration {
  blog_title : str;
  blog_subtitle : str;
  owner : str;
  email_address : str;
  rss_feed_path : str;
  style_sheet : str;
  root_url : str
}.

(** ** Constants of the module *)

Definition nl : str := [Re.newline].
Definition dq : str := [ascii_of_nat 34].

(** A double-quoted piece of a literal. *)
Definition q (s : string) : str := dq ++ lit s ++ dq.

(** How [str.format] renders an attribute that may be [None]. *)
Definition format_opt (o : option str) : str :=
  match o with
  | Some s => s
  | None => lit "None"
  end.

(** [_ARTICLE_TITLE_TEMPLATE.format(...)] *)
Definition _ARTICLE_TITLE_TEMPLATE (article_path article_title article_subtitle : str) : str :=
  lit "<h2 class=" ++ q "article_title" ++ lit "><a href=" ++ dq ++ article_path ++ dq
  ++ lit ">" ++ article_title ++ lit "</a><p class=" ++ q "article_subtitle" ++ lit ">"
  ++ article_subtitle ++ lit "</p></h2>".

(** [_CONTINUE_READING_TEMPLATE.format(...)] *)
Definition _CONTINUE_READING_TEMPLATE (article_path : str) : str :=
  lit "<a href=" ++ dq ++ article_path ++ dq ++ lit ">Continue reading...</a>".

(** [_ARTICLE_PREVIEW_TEMPLATE.format(...)] *)
Definition _ARTICLE_PREVIEW_TEMPLATE (article_title article_photo article_content : str) : str :=
  lit "<section class=" ++ q "article_preview" ++ lit ">" ++ nl ++ article_title ++ nl
  ++ article_photo ++ nl ++ article_content ++ nl ++ lit "</section>" ++ nl.

(** [_ARTICLE_CONTENT_TEMPLATE.format(...)] *)
Definition _ARTICLE_CONTENT_TEMPLATE (article_content : str) : str :=
  lit "<section class=" ++ q "article_content" ++ lit ">" ++ nl ++ article_content ++ nl
  ++ lit "</section>".

(** [_NAV_BAR_TEMPLATE.format(...)] *)
Definition _NAV_BAR_TEMPLATE (previous_article : str) : str :=
  lit "<a href=" ++ dq ++ previous_article ++ dq ++ lit ">Previous</a> <a href="
  ++ q "../" ++ lit ">Home</a>".

(** The patterns handed to [re]. *)
Definition PUB_DATE_RE : Re.pattern :=
  [Re.Lit (lit "<Published"); Re.StarGreedy Re.Space; Re.Lit (lit "=");
   Re.StarGreedy Re.Space; Re.PlusLazy (Re.Dot false); Re.Lit (lit ">")].

Definition FIGURE_RE : Re.pattern :=
  [Re.Lit (lit "<figure>"); Re.PlusLazy (Re.Dot true); Re.Lit (lit "</figure>")].

Definition ARTICLE_RE : Re.pattern :=
  [Re.Lit (lit "<article>"); Re.PlusLazy (Re.Dot true); Re.Lit (lit "</section>")].

Definition H1_RE : Re.pattern :=
  [Re.Lit (lit "<h1>"); Re.PlusLazy (Re.Dot false); Re.Lit (lit "</h1>")].

Definition H2_TITLE_OPEN : str := lit "<h2 class=" ++ q "article_title" ++ lit ">".

Definition H2_TITLE_RE : Re.pattern :=
  [Re.Lit H2_TITLE_OPEN; Re.PlusLazy (Re.Dot false); Re.Lit (lit "</a>")].

Definition A_HREF_RE : Re.pattern :=
  [Re.Lit (lit "<a href=" ++ dq); Re.PlusLazy (Re.Dot false); Re.Lit (dq ++ lit ">")].

Definition H2_BLOCK_RE : Re.pattern :=
  [Re.Lit (lit "<h2"); Re.PlusLazy (Re.Dot false); Re.Lit (lit "</h2>")].

Definition NONSPACE_RE : Re.pattern := [Re.One Re.NonSpace].

Definition P_OPEN : str := lit "<p>".
Definition P_CLOSE : str := lit "</p>".

(** ** Functions that need no collaborator *)

(** [extract_pub_date(html)] *)
Definition extract_pub_date (html : str) : option str :=
  Re.search_group PUB_DATE_RE html.

(** [preprocess_raw_html(raw_html)]: [group] on a failed search is an
    attribute access on [None]. *)
Definition preprocess_raw_html (raw_html : str) : result str :=
  match Re.search_group ARTICLE_RE raw_html with
  | None => Raise AttributeError
  | Some article_content =>
      let article_content :=
        PyStr.replace (lit "</section>") []
          (PyStr.replace (lit "<article>") [] article_content) in
      let article_content :=
        PyStr.replace (lit "<section class=" ++ q "main_content" ++ lit ">") []
          article_content in
      let article_content :=
        PyStr.replace (lit "<section class=" ++ q "article_content" ++ lit ">") []
          article_content in
      Ok article_content
  end.

(** The loop of [extract_article_preview] over the fragments, from the
    current [intro_text_list]. *)
Fixpoint collect_intro (paragraphs : list str) (intro_text_list : list str)
  : result (list str) :=
  match paragraphs with
  | [] => Ok intro_text_list
  | paragraph :: rest =>
      if 2 <? length intro_text_list then Ok intro_text_list
      else
        c <- PyStr.head (PyStr.strip paragraph) ;;
        if Ascii.eqb c "<"%char
        then collect_intro rest intro_text_list
        else collect_intro rest (intro_text_list ++ [paragraph])
  end.

(** The removal of the closing tag from the intro text: the reversed text is
    searched for the reversed [</p>]. *)
Definition strip_closing_tag (intro_text : str) : result str :=
  let reverse_text := PyStr.reversed intro_text in
  idx <- PyStr.index (lit ">p/<") reverse_text ;;
  let tag_index := idx + 4 in
  Ok (PyStr.slice_to_neg intro_text tag_index).

(** The body of [extract_article_preview] once the file is read. *)
Definition extract_preview_from (article : Article) (article_text : str)
  : result ArticlePreview :=
  let paragraphs := PyStr.split P_OPEN article_text in
  intro_text_list <- collect_intro paragraphs [[]] ;;
  let intro_text := PyStr.join P_OPEN intro_text_list in
  intro_text <- strip_closing_tag intro_text ;;
  let first_photo := Re.search_group FIGURE_RE article_text in
  Ok (mkArticlePreview article intro_text first_photo).

(** ** Functions that call into [file_tools] *)

(** [previous_article] of [generate_post]: the empty string or a path. *)
Inductive PrevLink : Type :=
| NoPrev                   (* [''] *)
| PrevPath (p : Path.t).   (* [Path('../') / target] *)

(** [str(previous_article)], as [str.format] renders it. *)
Definition prev_str (l : PrevLink) : str :=
  match l with
  | NoPrev => []
  | PrevPath p => Path.to_str p
  end.

(** [not previous_article]: a path object is always true. *)
Definition prev_is_empty (l : PrevLink) : bool :=
  match l with
  | NoPrev => true
  | PrevPath _ => false
  end.

(** What a call of [generate_post] leaves behind: what it returned or
    raised, the article it was given (whose [title] it sets), and the list
    object it got from [read_listing_file]. *)
Record PostOutcome : Type := mkPostOutcome {
  post_result : result str;
  post_article : Article;
  post_listing : list Article
}.

(** What [create_article_previews] leaves behind: the previews its generator
    yields, each computed when it is asked for, and the list object it got
    from [read_listing_file]. *)
Record PreviewsOutcome : Type := mkPreviewsOutcome {
  previews : list (result ArticlePreview);
  previews_listing : list Article
}.

Record LandingOutcome : Type := mkLandingOutcome {
  landing_result : result str;
  landing_listing : list Article
}.

Section HtmlTools.

(** The collaborators: [file_tools] and the clock.  [read_listing_file]
    builds a new list of new records at each call; the functions below take
    that list as [listing]. *)

(** [find_article_index(article, listing)]; [None] is its [ValueError]. *)
Variable find_article_index : Article -> list Article -> option nat.

(** The property [article.human_readable_pub_date]. *)
Variable human_readable_pub_date : Article -> str.

(** The property [article.html_path]. *)
Variable html_path : Article -> str.

(** [read_complete_file(path)] *)
Variable read_complete_file : str -> str.

(** [get_configuration()] *)
Variable configuration : Configuration.

(** [datetime.date.today().strftime(fmt)] *)
Variable today_strftime : string -> str.

(** [template.format(...)] on a template read from a file, with its keyword
    arguments as an association list. *)
Variable format : str -> list (string * str) -> str + string.

(** The call of [format], with what it raises wrapped as a [FormatError]. *)
Definition run_format (template : str) (kwargs : list (string * str)) : result str :=
  match format template kwargs with
  | inl s => Ok s
  | inr msg => Raise (FormatError msg)
  end.

(** [extract_article_preview(article)] *)
Definition extract_article_preview (article : Article) : result ArticlePreview :=
  let article_text := read_complete_file (html_path article) in
  extract_preview_from article article_text.

(** [generate_preview_html(article_preview)] *)
Definition generate_preview_html (article_preview : ArticlePreview) : str :=
  let a := preview_article article_preview in
  let article_title_html :=
    _ARTICLE_TITLE_TEMPLATE (target a) (format_opt (title a))
                            (human_readable_pub_date a) in
  let article_photo_html :=
    match first_photo article_preview with
    | Some photo => photo
    | None => []
    end in
  let continue_reading_link := _CONTINUE_READING_TEMPLATE (target a) in
  let article_content :=
    intro_text article_preview ++ lit " " ++ continue_reading_link ++ lit "</p>" in
  _ARTICLE_PREVIEW_TEMPLATE article_title_html article_photo_html article_content.

(** [create_article_previews()]: [listing.reverse()] reverses the list
    object in place, and the generator runs over it. *)
Definition create_article_previews (listing : list Article) : PreviewsOutcome :=
  let listing := rev listing in
  mkPreviewsOutcome (map extract_article_preview listing) listing.

(** The loop of [generate_landing_page] over the generator: the first
    preview that raises ends it. *)
Fixpoint aggregate_previews (articles : list (result ArticlePreview))
  (aggregate_html : str) : result str :=
  match articles with
  | [] => Ok aggregate_html
  | article :: rest =>
      article <- article ;;
      aggregate_previews rest
        (aggregate_html ++ generate_preview_html article ++ nl ++ nl)
  end.

(** The keyword arguments both page renderings share. *)
Definition page_fields (article_title nav_bar article_content home_page_link : str)
  : list (string * str) :=
  let last_updated := lit "Last updated: " ++ today_strftime "%B %d, %Y" in
  let current_year := today_strftime "%Y" in
  [("article_title"%string, article_title);
   ("nav_bar"%string, nav_bar);
   ("article_content"%string, article_content);
   ("last_updated"%string, last_updated);
   ("current_year"%string, current_year);
   ("blog_title"%string, blog_title configuration);
   ("blog_subtitle"%string, blog_subtitle configuration);
   ("owner"%string, owner configuration);
   ("email_address"%string, email_address configuration);
   ("rss_feed_path"%string, rss_feed_path configuration);
   ("style_sheet"%string, style_sheet configuration);
   ("root_url"%string, root_url configuration);
   ("home_page_link"%string, home_page_link)].

(** The aggregate content of the landing page. *)
Definition landing_content (listing : list Article) : result str :=
  aggregate_previews (previews (create_article_previews listing)) [].

(** [generate_landing_page(template_path)] *)
Definition generate_landing_page (template_path : str) (listing : list Article)
  : LandingOutcome :=
  let articles := create_article_previews listing in
  let article_template := read_complete_file template_path in
  mkLandingOutcome
    (aggregate_html <- aggregate_previews (previews articles) [] ;;
     run_format article_template
       (page_fields (blog_title configuration) [] aggregate_html []))
    (previews_listing articles).

(** The heading [generate_post] takes the title from: a level-1 heading,
    else the title block of a preview. *)
Definition find_title_match (html : str) : option str :=
  match Re.search_group H1_RE html with
  | Some m => Some m
  | None => Re.search_group H2_TITLE_RE html
  end.

(** The title taken from the heading found. *)
Definition title_of_match (m : str) : str :=
  let article_title :=
    PyStr.replace (lit "</h1>") [] (PyStr.replace (lit "<h1>") [] m) in
  let article_title := PyStr.replace H2_TITLE_OPEN [] article_title in
  let article_title := Re.sub A_HREF_RE [] article_title in
  PyStr.replace (lit "</a>") [] article_title.

(** The link to the previous entry.  [listing[-1]] on an empty list raises
    the [IndexError] the source catches; [listing[k]] for [k >= 0] raises
    one that it does not. *)
Definition previous_article_of (article : Article) (listing : list Article)
  : result PrevLink :=
  match find_article_index article listing with
  | None =>
      match listing with
      | [] => Ok NoPrev
      | p :: rest => Ok (PrevPath (Path.truediv (Path.parse (lit "../"))
                                                (target (last rest p))))
      end
  | Some article_index =>
      let previous_article_index := (Z.of_nat article_index - 1)%Z in
      if (0 <=? previous_article_index)%Z then
        match nth_error listing (Z.to_nat previous_article_index) with
        | Some p => Ok (PrevPath (Path.truediv (Path.parse (lit "../")) (target p)))
        | None => Raise IndexError
        end
      else Ok NoPrev
  end.

(** The content section of the post, from the article whose title is set. *)
Definition post_content (article : Article) (article_title_match article_title : str)
  : result str :=
  let pub_date_full := extract_pub_date (html article) in
  let article_title_html :=
    _ARTICLE_TITLE_TEMPLATE [] article_title (human_readable_pub_date article) in
  let html' := Re.sub H2_BLOCK_RE [] (html article) in
  let html' := PyStr.replace article_title_match [] html' in
  let html' := PyStr.strip html' in
  let html' :=
    match pub_date_full with
    | Some d => PyStr.replace d [] html'
    | None => html'
    end in
  let article_content := article_title_html ++ nl ++ html' in
  let lines := PyStr.split nl article_content in
  match lines with
  | [] => Raise IndexError
  | line0 :: lines' =>
      let article_content :=
        match Re.match_ NONSPACE_RE line0 with
        | Some _ => article_content
        | None => PyStr.join nl lines'
        end in
      Ok (_ARTICLE_CONTENT_TEMPLATE article_content)
  end.

(** The navigation bar. *)
Definition nav_bar_of (previous_article : PrevLink) : str :=
  let nav_bar := _NAV_BAR_TEMPLATE (prev_str previous_article) in
  if prev_is_empty previous_article
  then PyStr.replace (lit "<a href=" ++ dq ++ dq ++ lit ">Previous</a>") [] nav_bar
  else nav_bar.

(** [generate_post(article, template_path, listing_path)] *)
Definition generate_post (article : Article) (template_path : str)
  (listing : list Article) : PostOutcome :=
  match find_title_match (html article) with
  | None =>
      mkPostOutcome
        (Raise (ValueError "Argument `html` must have an `h1` or `h2` tag."))
        article listing
  | Some article_title_match =>
      let article_title := title_of_match article_title_match in
      let article := set_title article article_title in
      mkPostOutcome
        (article_content_html <- post_content article article_title_match article_title ;;
         previous_article <- previous_article_of article listing ;;
         let template := read_complete_file template_path in
         let nav_bar := nav_bar_of previous_article in
         run_format template
           (page_fields article_title nav_bar article_content_html (lit "../")))
        article listing
  end.

End HtmlTools.

(** ** Vocabulary of the statements *)

(** [t] occurs in [s] at index [k]. *)
Definition occurs_at (t s : str) (k : nat) : Prop :=
  exists a b, s = a ++ t ++ b /\ length a = k.

(** [t] occurs somewhere in [s]. *)
Definition occurs (t s : str) : Prop := exists k, occurs_at t s k.

(** The occurrence of [t] at [k] is the last one in [s]. *)
Definition last_occurrence (t s : str) (k : nat) : Prop :=
  occurs_at t s k /\ forall j, k < j -> ~ occurs_at t s j.

(** The text lies on one line. *)
Definition one_line (s : str) : Prop := ~ In Re.newline s.

(** [s] holds [opening], then at least one character, then [closing]; off
    [re.DOTALL] the characters in between lie on one line. *)
Definition delimited (opening closing : str) (dotall : bool) (s : str) : Prop :=
  exists pre inner post,
    s = pre ++ opening ++ inner ++ closing ++ post
    /\ inner <> [] /\ (dotall = false -> one_line inner).

(** The pattern [opening.+?closing]. *)
Definition delimited_re (opening closing : str) (dotall : bool) : Re.pattern :=
  [Re.Lit opening; Re.PlusLazy (Re.Dot dotall); Re.Lit closing].

(** The article has a level-1 heading. *)
Definition has_h1 (html : str) : Prop :=
  delimited (lit "<h1>") (lit "</h1>") false html.

(** The article has the title block of a preview. *)
Definition has_title_block (html : str) : Prop :=
  delimited H2_TITLE_OPEN (lit "</a>") false html.

(** What [generate_post] raises for an article without a heading. *)
Definition HEADING_ERROR : exn :=
  ValueError "Argument `html` must have an `h1` or `h2` tag.".

(** Every character of the text is white space. *)
Definition all_space (w : str) : Prop := forallb PyStr.isspace w = true.

(** The text of a publication marker: the keyword, white space around the
    equals sign, a value of at least one character on one line, and the
    closing delimiter. *)
Definition pub_marker (m : str) : Prop :=
  exists ws1 ws2 value,
    m = lit "<Published" ++ ws1 ++ lit "=" ++ ws2 ++ value ++ lit ">"
    /\ all_space ws1 /\ all_space ws2 /\ value <> [] /\ one_line value.

(** [m] is a publication marker that starts at index [k] of [html]. *)
Definition pub_marker_at (html : str) (k : nat) (m : str) : Prop :=
  occurs_at m html k /\ pub_marker m.

Definition has_pub_marker (html : str) : Prop :=
  exists k m, pub_marker_at html k m.

(** Comparing [t] with the text [p] finds a difference before [p] ends. *)
Fixpoint differs (t p : str) : bool :=
  match t, p with
  | a :: t', b :: p' => if Ascii.eqb a b then differs t' p' else true
  | _, _ => false
  end.

(** No occurrence of [t] can start inside [p], whatever follows [p]. *)
Fixpoint no_start (t p : str) : bool :=
  match p with
  | [] => true
  | _ :: p' => differs t p && no_start t p'
  end.

(** The index [k] of a match, moved past a prefix of length [n]. *)
Definition shift_match (n : nat) (r : option (nat * str)) : option (nat * str) :=
  match r with
  | Some (k, m) => Some (n + k, m)
  | None => None
  end.

(** The opening tag of a hyperlink up to its address, and what closes it. *)
Definition A_OPEN : str := lit "<a href=" ++ dq.
Definition A_CLOSE : str := dq ++ lit ">".

(** Nothing is left of the fragment once it is stripped. *)
Definition blank (s : str) : Prop := PyStr.strip s = [].

(** The stripped fragment starts with a character other than [<]: the loop
    of [extract_article_preview] collects it. *)
Definition text_leading (s : str) : bool :=
  match PyStr.strip s with
  | c :: _ => negb (Ascii.eqb c "<"%char)
  | [] => false
  end.

(** The body of the post: the article without its [h2] blocks, its heading
    and its publication marker (lines 237-243 of [generate_post]). *)
Definition post_body (html article_title_match : str) : str :=
  let html' := Re.sub H2_BLOCK_RE [] html in
  let html' := PyStr.replace article_title_match [] html' in
  let html' := PyStr.strip html' in
  match extract_pub_date html with
  | Some d => PyStr.replace d [] html'
  | None => html'
  end.

(** The opening tags of the two sections [preprocess_raw_html] deletes. *)
Definition SECTION_MAIN_OPEN : str := lit "<section class=" ++ q "main_content" ++ lit ">".
Definition SECTION_CONTENT_OPEN : str :=
  lit "<section class=" ++ q "article_content" ++ lit ">".

(** The text starts with a slash. *)
Definition rooted (t : str) : bool :=
  match t with
  | c :: _ => Ascii.eqb c Path.slash
  | [] => false
  end.

(** [r] is [s] without the occurrences of [old], taken from left to right
    and not overlapping. *)
Inductive deleted (old : str) : str -> str -> Prop :=
| deleted_none (s : str) : ~ occurs old s -> deleted old s s
| deleted_first (a b r : str) :
    (forall j, j < length a -> ~ occurs_at old (a ++ old ++ b) j) ->
    deleted old b r ->
    deleted old (a ++ old ++ b) (a ++ r).

(** The link [generate_post] makes to the entry [p] of the listing. *)
Definition link_to (p : Article) : PrevLink :=
  PrevPath (Path.truediv (Path.parse (lit "../")) (target p)).

(** ** A small site, for running the functions *)

Module Site.

(** Modelled from the spec: [file_tools.find_article_index] is not under
    src/.  The lookup goes by source and target and by no other field, and
    reports the first entry that matches or that there is none. *)
Fixpoint find_article_index (article : Article) (listing : list Article)
  : option nat :=
  match listing with
  | [] => None
  | other :: rest =>
      if Path.str_eqb (source article) (source other)
         && Path.str_eqb (target article) (target other)
      then Some 0
      else option_map S (find_article_index article rest)
  end.

(** Modelled from the spec: the rendering of the publication date that
    [file_tools.Article] derives from [pub_date]. *)
Definition human_readable_pub_date (a : Article) : str := format_opt (pub_date a).

(** Modelled from the spec: [Article.html_path], the rendered page of the
    article, here its target. *)
Definition html_path (a : Article) : str := target a.

Definition page (body : string) : str :=
  lit "<html><body><article>" ++ lit body ++ lit "</article></body></html>".

Definition post (name : string) (body : string) : Article :=
  mkArticle (lit name ++ lit ".md") (lit name ++ lit ".html")
            (Some (lit "2016-01-02")) (lit body) [] None.

Definition A : Article := post "a" "<h1>First</h1><p>Intro A.</p><p>More A.</p>".
Definition B : Article := post "b" "<h1>Second</h1><p>Intro B.</p><p>More B.</p>".
Definition C : Article := post "c" "<h1>Third</h1><p>Intro C.</p><p>More C.</p>".
Definition D : Article := post "d" "<h1>Fourth</h1><p>Intro D.</p>".

(** The file store: the page template and the rendered pages. *)
Definition read_complete_file (path : str) : str :=
  if Path.str_eqb path (lit "template.html")
  then lit "<title>{article_title}</title><nav>{nav_bar}</nav>{article_content}"
  else if Path.str_eqb path (target A) then page "<h1>First</h1><p>Intro A.</p><p>More A.</p>"
  else if Path.str_eqb path (target B) then page "<h1>Second</h1><p>Intro B.</p><p>More B.</p>"
  else page "<h1>Other</h1><p>Intro.</p>".

Definition configuration : Configuration :=
  mkConfiguration (lit "Blog") (lit "Notes") (lit "Owner") (lit "owner@example.org")
                  (lit "rss.xml") (lit "style.css") (lit "https://example.org").

Definition today_strftime (fmt : string) : str :=
  if String.eqb fmt "%Y" then lit "2016" else lit "January 02, 2016".

(** The value of a keyword argument. *)
Fixpoint keyword (name : string) (kwargs : list (string * str)) : option str :=
  match kwargs with
  | [] => None
  | (k, v) :: rest => if String.eqb k name then Some v else keyword name rest
  end.

(** One pass of [str.format] over a template: [field] is the name being read
    since an opening brace, [out] what is written so far.  A doubled brace
    is a brace; a value is written as it is and not read again. *)
Fixpoint format_from (kwargs : list (string * str)) (template : str)
  (field : option str) (out : str) : str + string :=
  match template with
  | [] =>
      match field with
      | None => inl out
      | Some _ => inr "expected '}' before end of string"%string
      end
  | c :: rest =>
      match field with
      | Some name =>
          if Ascii.eqb c "}"%char then
            match keyword (string_of_list_ascii name) kwargs with
            | Some v => format_from kwargs rest None (out ++ v)
            | None => inr "KeyError"%string
            end
          else format_from kwargs rest (Some (name ++ [c])) out
      | None =>
          if Ascii.eqb c "{"%char then
            match rest with
            | c' :: rest' =>
                if Ascii.eqb c' "{"%char
                then format_from kwargs rest' None (out ++ [c])
                else format_from kwargs rest (Some []) out
            | [] => format_from kwargs rest (Some []) out
            end
          else if Ascii.eqb c "}"%char then
            match rest with
            | c' :: rest' =>
                if Ascii.eqb c' "}"%char
                then format_from kwargs rest' None (out ++ [c])
                else inr "Single '}' encountered in format string"%string
            | [] => inr "Single '}' encountered in format string"%string
            end
          else format_from kwargs rest None (out ++ [c])
      end
  end.

(** [template.format(...)] for templates whose fields are plain names: a
    field that is no keyword of the call is an error (a conversion, a
    format specification, an attribute or an index is not read as such). *)
Definition format (template : str) (kwargs : list (string * str)) : str + string :=
  format_from kwargs template None [].

End Site.

(** Equations between concatenations that differ by bracketing. *)
Ltac reassoc :=
  repeat first [rewrite <- app_assoc | rewrite <- app_comm_cons]; reflexivity.

(** ** Facts about the string methods *)

Module PyStrFacts.
Import PyStr.

Lemma startswith_app (t r : str) : startswith t (t ++ r) = true.
Proof.
  induction t as [|a t IH]; simpl; [reflexivity|].
  now rewrite Ascii.eqb_refl.
Qed.

Lemma startswith_inv (t s : str) :
  startswith t s = true -> exists r, s = t ++ r.
Proof.
  revert s; induction t as [|a t IH]; intros s H; simpl in *.
  - now exists s.
  - destruct s as [|b s]; [discriminate|].
    destruct (Ascii.eqb a b) eqn:E; [|discriminate].
    apply Ascii.eqb_eq in E; subst b.
    destruct (IH _ H) as [r ->]. now exists r.
Qed.

Lemma occurs_at_0 (t s : str) : occurs_at t s 0 <-> startswith t s = true.
Proof.
  split.
  - intros (a & b & -> & Ha). destruct a; [|discriminate]. simpl. apply startswith_app.
  - intros H. destruct (startswith_inv _ _ H) as [r ->]. now exists [], r.
Qed.

Lemma occurs_at_S (t : str) (c : ascii) (s : str) (k : nat) :
  occurs_at t (c :: s) (S k) <-> occurs_at t s k.
Proof.
  split.
  - intros (a & b & E & Ha). destruct a as [|c' a]; [discriminate|].
    simpl in E. injection E as -> ->. exists a, b. split; [reflexivity|].
    simpl in Ha. lia.
  - intros (a & b & -> & Ha). exists (c :: a), b. split; [reflexivity|].
    simpl. lia.
Qed.

Lemma occurs_at_nil_S (t : str) (k : nat) : ~ occurs_at t [] (S k).
Proof.
  intros (a & b & E & Ha). destruct a; [discriminate|discriminate].
Qed.

Lemma occurs_at_bound (t s : str) (k : nat) :
  occurs_at t s k -> k + length t <= length s.
Proof.
  intros (a & b & -> & <-). rewrite !length_app. lia.
Qed.

Lemma find_Some (t s : str) (k : nat) :
  find t s = Some k ->
  occurs_at t s k /\ forall j, j < k -> ~ occurs_at t s j.
Proof.
  revert k; induction s as [|c s IH]; intros k H; simpl in H.
  - destruct (startswith t []) eqn:E; [|discriminate].
    injection H as <-. split; [now apply occurs_at_0|]. intros j Hj; lia.
  - destruct (startswith t (c :: s)) eqn:E.
    + injection H as <-. split; [now apply occurs_at_0|]. intros j Hj; lia.
    + destruct (find t s) as [k'|] eqn:F; [|discriminate].
      injection H as <-. destruct (IH _ eq_refl) as [Ho Hm]. split.
      * now apply occurs_at_S.
      * intros [|j] Hj Hc.
        -- apply occurs_at_0 in Hc. congruence.
        -- apply occurs_at_S in Hc. apply (Hm j); [lia|assumption].
Qed.

Lemma find_None (t s : str) (k : nat) : find t s = None -> ~ occurs_at t s k.
Proof.
  revert k; induction s as [|c s IH]; intros k H Hc; simpl in H.
  - destruct (startswith t []) eqn:E; [discriminate|].
    destruct k; [apply occurs_at_0 in Hc; congruence|].
    now apply occurs_at_nil_S in Hc.
  - destruct (startswith t (c :: s)) eqn:E; [discriminate|].
    destruct (find t s) eqn:F; [discriminate|].
    destruct k; [apply occurs_at_0 in Hc; congruence|].
    apply occurs_at_S in Hc. now apply (IH k).
Qed.

Lemma find_first (t s : str) (k : nat) :
  occurs_at t s k -> (forall j, j < k -> ~ occurs_at t s j) -> find t s = Some k.
Proof.
  intros Ho Hm. destruct (find t s) as [k'|] eqn:F.
  - destruct (find_Some _ _ _ F) as [Ho' Hm'].
    destruct (Nat.lt_trichotomy k k') as [L|[->|L]]; [|reflexivity|].
    + exfalso. now apply (Hm' k).
    + exfalso. now apply (Hm k').
  - exfalso. now apply (find_None _ _ k F).
Qed.

Lemma find_occurs (t s : str) : occurs t s <-> find t s <> None.
Proof.
  split.
  - intros [k Hk] F. now apply (find_None _ _ k F).
  - intros F. destruct (find t s) as [k|] eqn:E; [|congruence].
    exists k. now apply find_Some.
Qed.

(** An occurrence in the reversed string is an occurrence of the text read
    backwards, counted from the other end. *)
Lemma occurs_at_rev (t s : str) (k : nat) :
  occurs_at (rev t) (rev s) k -> occurs_at t s (length s - k - length t).
Proof.
  intros (a & b & E & Ha).
  assert (Es : s = rev b ++ t ++ rev a).
  { rewrite <- (rev_involutive s), E, !rev_app_distr, rev_involutive.
    now rewrite app_assoc. }
  exists (rev b), (rev a). split; [assumption|].
  rewrite Es, !length_app, !length_rev. lia.
Qed.

Lemma find_rev_last (t s : str) (k : nat) :
  last_occurrence t s k ->
  find (rev t) (rev s) = Some (length s - k - length t).
Proof.
  intros [Ho Hl]. apply find_first.
  - destruct Ho as (a & b & -> & <-).
    exists (rev b), (rev a). split.
    + now rewrite !rev_app_distr, app_assoc.
    + rewrite !length_app, length_rev. lia.
  - intros j Hj Hc.
    pose proof (occurs_at_bound _ _ _ Hc) as Hb. rewrite !length_rev in Hb.
    apply occurs_at_rev in Hc.
    apply (Hl (length s - j - length t)); [lia|assumption].
Qed.

Lemma find_rev_none (t s : str) :
  ~ occurs t s -> find (rev t) (rev s) = None.
Proof.
  intros H. destruct (find (rev t) (rev s)) as [k|] eqn:F; [|reflexivity].
  exfalso. apply H. apply find_Some in F. destruct F as [Ho _].
  apply occurs_at_rev in Ho. red. eexists. exact Ho.
Qed.

(** When [t] occurs in [s] it has a last occurrence. *)
Lemma last_occurrence_exists (t s : str) :
  occurs t s -> exists k, last_occurrence t s k.
Proof.
  intros [k0 H0].
  assert (F : find (rev t) (rev s) <> None).
  { apply find_occurs. destruct H0 as (a & b & -> & _).
    exists (length (rev b)), (rev b), (rev a). split; [|reflexivity].
    now rewrite !rev_app_distr, app_assoc. }
  destruct (find (rev t) (rev s)) as [j|] eqn:E; [|congruence].
  destruct (find_Some _ _ _ E) as [Ho Hm].
  pose proof (occurs_at_bound _ _ _ Ho) as Hb. rewrite !length_rev in Hb.
  exists (length s - j - length t). split.
  - now apply occurs_at_rev.
  - intros i Hi Hc. pose proof (occurs_at_bound _ _ _ Hc) as Hb'.
    destruct Hc as (a & b & -> & <-).
    apply (Hm (length b)).
    + rewrite !length_app in *. lia.
    + exists (rev b), (rev a). split.
      * now rewrite !rev_app_distr, app_assoc.
      * apply length_rev.
Qed.

End PyStrFacts.

(** ** Facts about the matcher *)

Module ReFacts.
Import PyStr Re PyStrFacts.

Lemma strip_prefix_app (t r : str) : strip_prefix t (t ++ r) = Some r.
Proof.
  induction t as [|a t IH]; simpl; [reflexivity|].
  now rewrite Ascii.eqb_refl.
Qed.

Lemma strip_prefix_Some (t s r : str) : strip_prefix t s = Some r -> s = t ++ r.
Proof.
  revert s; induction t as [|a t IH]; intros s H; simpl in *.
  - now injection H as ->.
  - destruct s as [|b s]; [discriminate|].
    destruct (Ascii.eqb a b) eqn:E; [|discriminate].
    apply Ascii.eqb_eq in E; subst b. now rewrite (IH _ H).
Qed.

Lemma strip_prefix_None (t s : str) :
  strip_prefix t s = None <-> startswith t s = false.
Proof.
  revert s; induction t as [|a t IH]; intros s; simpl.
  - split; discriminate.
  - destruct s as [|b s]; [tauto|].
    destruct (Ascii.eqb a b); [apply IH|tauto].
Qed.

(** A literal whose first character is not the first of [s] does not match. *)
Lemma strip_prefix_head (c : ascii) (t : str) (a : ascii) (s : str) :
  a <> c -> strip_prefix (c :: t) (a :: s) = None.
Proof.
  intros H. simpl. destruct (Ascii.eqb c a) eqn:E; [|reflexivity].
  apply Ascii.eqb_eq in E. congruence.
Qed.

Lemma star_greedy_sound (c : cclass) (k : str -> option str) (s r : str) :
  star_greedy c k s = Some r ->
  exists w x, s = w ++ x /\ forallb (cmatch c) w = true /\ k x = Some r.
Proof.
  induction s as [|a s IH]; simpl; intros H.
  - now exists [], [].
  - destruct (cmatch c a) eqn:Ca.
    + destruct (star_greedy c k s) as [r'|] eqn:G.
      * injection H as ->. destruct (IH eq_refl) as (w & x & -> & Hw & Hk).
        exists (a :: w), x. simpl. now rewrite Ca, Hw.
      * now exists [], (a :: s).
    + now exists [], (a :: s).
Qed.

Lemma star_greedy_complete (c : cclass) (k : str -> option str) (w x : str) :
  forallb (cmatch c) w = true -> k x <> None -> star_greedy c k (w ++ x) <> None.
Proof.
  intros Hw Hk. induction w as [|a w IH]; simpl in *.
  - destruct x as [|b x]; simpl; [assumption|].
    destruct (cmatch c b); [|assumption].
    destruct (star_greedy c k x); [discriminate|assumption].
  - apply andb_true_iff in Hw as [Ca Hw]. rewrite Ca.
    destruct (star_greedy c k (w ++ x)); [discriminate|now apply IH in Hw].
Qed.

(** A lazy repetition stops at the first place where what follows matches. *)
Lemma star_lazy_sound (c : cclass) (k : str -> option str) (s r : str) :
  star_lazy c k s = Some r ->
  exists w x, s = w ++ x /\ forallb (cmatch c) w = true /\ k x = Some r
              /\ forall w1 w2, w = w1 ++ w2 -> w2 <> [] -> k (w2 ++ x) = None.
Proof.
  induction s as [|a s IH]; simpl; intros H.
  - destruct (k []) as [r'|] eqn:K; [|discriminate]. injection H as ->.
    exists [], []. repeat (split; [easy|]).
    intros w1 w2 E Hne. destruct w1, w2; try discriminate; congruence.
  - destruct (k (a :: s)) as [r'|] eqn:K.
    + injection H as ->. exists [], (a :: s). repeat (split; [easy|]).
      intros w1 w2 E Hne. destruct w1, w2; try discriminate; congruence.
    + destruct (cmatch c a) eqn:Ca; [|discriminate].
      destruct (IH H) as (w & x & -> & Hw & Hk & Hmin).
      exists (a :: w), x. simpl. rewrite Ca, Hw. repeat (split; [easy|]).
      intros [|b w1] w2 E Hne; simpl in E.
      * now subst w2.
      * injection E as -> ->. now apply (Hmin w1 w2).
Qed.

Lemma star_lazy_complete (c : cclass) (k : str -> option str) (w x : str) :
  forallb (cmatch c) w = true -> k x <> None -> star_lazy c k (w ++ x) <> None.
Proof.
  intros Hw Hk. induction w as [|a w IH]; simpl in *.
  - destruct x as [|b x]; simpl; destruct (k _); congruence.
  - apply andb_true_iff in Hw as [Ca Hw].
    destruct (k (a :: w ++ x)); [discriminate|]. rewrite Ca. now apply IH.
Qed.

Lemma star_lazy_exact (c : cclass) (k : str -> option str) (w x r : str) :
  forallb (cmatch c) w = true -> k x = Some r ->
  (forall w1 w2, w = w1 ++ w2 -> w2 <> [] -> k (w2 ++ x) = None) ->
  star_lazy c k (w ++ x) = Some r.
Proof.
  intros Hw Hk. induction w as [|a w IH]; intros Hmin; simpl in *.
  - destruct x as [|b x]; simpl; now rewrite Hk.
  - apply andb_true_iff in Hw as [Ca Hw].
    pose proof (Hmin [] (a :: w) eq_refl ltac:(discriminate)) as K0.
    simpl in K0. rewrite K0, Ca.
    apply IH; [assumption|]. intros w1 w2 -> Hne.
    now apply (Hmin (a :: w1) w2).
Qed.

Lemma match_here_sound (p : pattern) (s r : str) :
  match_here p s = Some r -> exists m, s = m ++ r /\ matches p m.
Proof.
  revert s r; induction p as [|[t|c|c|c] p IH]; intros s r H; simpl in H.
  - injection H as ->. now exists [].
  - destruct (strip_prefix t s) as [s'|] eqn:E; [|discriminate].
    apply strip_prefix_Some in E; subst s.
    destruct (IH _ _ H) as (m & -> & Hm).
    exists (t ++ m). split; [now rewrite app_assoc|]. simpl. now exists m.
  - destruct s as [|a s]; [discriminate|].
    destruct (cmatch c a) eqn:Ca; [|discriminate].
    destruct (IH _ _ H) as (m & -> & Hm).
    exists (a :: m). split; [reflexivity|]. simpl. now exists a, m.
  - apply star_greedy_sound in H as (w & x & -> & Hw & Hk).
    destruct (IH _ _ Hk) as (m & -> & Hm).
    exists (w ++ m). split; [now rewrite app_assoc|]. simpl. now exists w, m.
  - destruct s as [|a s]; [discriminate|].
    destruct (cmatch c a) eqn:Ca; [|discriminate].
    apply star_lazy_sound in H as (w & x & -> & Hw & Hk & _).
    destruct (IH _ _ Hk) as (m & -> & Hm).
    exists (a :: w ++ m). split; [simpl; now rewrite app_assoc|].
    simpl. now exists a, w, m.
Qed.

Lemma match_here_complete (p : pattern) (m r : str) :
  matches p m -> match_here p (m ++ r) <> None.
Proof.
  revert m; induction p as [|[t|c|c|c] p IH]; intros m H; simpl in H |- *.
  - discriminate.
  - destruct H as (m' & -> & Hm). rewrite <- app_assoc, strip_prefix_app.
    now apply IH.
  - destruct H as (a & m' & -> & Ca & Hm). simpl. rewrite Ca. now apply IH.
  - destruct H as (w & m' & -> & Hw & Hm). rewrite <- app_assoc.
    apply star_greedy_complete; [assumption|now apply IH].
  - destruct H as (a & w & m' & -> & Ca & Hw & Hm). simpl. rewrite Ca.
    rewrite <- app_assoc. apply star_lazy_complete; [assumption|now apply IH].
Qed.

Lemma matched_app (m r : str) : matched (m ++ r) r = m.
Proof.
  unfold matched. rewrite length_app.
  replace (length m + length r - length r) with (length m + 0) by lia.
  rewrite firstn_app_2. simpl. apply app_nil_r.
Qed.

Lemma search_Some (p : pattern) (s : str) (k : nat) (m : str) :
  search p s = Some (k, m) ->
  exists pre post,
    s = pre ++ m ++ post /\ length pre = k
    /\ match_here p (m ++ post) = Some post
    /\ forall j, j < k -> match_here p (skipn j s) = None.
Proof.
  revert k; induction s as [|c s IH]; intros k H; simpl in H.
  - destruct (match_here p []) as [rest|] eqn:M; [|discriminate].
    injection H as <- <-.
    destruct (match_here_sound _ _ _ M) as (m & E & _).
    symmetry in E. apply app_eq_nil in E as [-> ->].
    exists [], []. simpl. repeat split; try assumption. intros j Hj; lia.
  - destruct (match_here p (c :: s)) as [rest|] eqn:M.
    + injection H as <- <-.
      destruct (match_here_sound _ _ _ M) as (m & E & _).
      rewrite E in *. rewrite matched_app.
      exists [], rest. simpl. repeat split; try assumption. intros j Hj; lia.
    + destruct (search p s) as [[k' m']|] eqn:F; [|discriminate].
      injection H as <- <-.
      destruct (IH _ eq_refl) as (pre & post & -> & Hk & Hm & Hmin).
      exists (c :: pre), post. simpl. repeat split; try assumption; [lia|].
      intros [|j] Hj; [assumption|]. simpl. apply Hmin. lia.
Qed.

Lemma search_None (p : pattern) (s : str) (j : nat) :
  search p s = None -> match_here p (skipn j s) = None.
Proof.
  revert j; induction s as [|c s IH]; intros j H; simpl in H.
  - destruct (match_here p []) eqn:M; [discriminate|]. now rewrite skipn_nil.
  - destruct (match_here p (c :: s)) eqn:M; [discriminate|].
    destruct (search p s) as [[k' m']|] eqn:F; [discriminate|].
    destruct j; [assumption|]. simpl. now apply IH.
Qed.

Lemma search_here (p : pattern) (s r : str) :
  match_here p s = Some r -> search p s = Some (0, matched s r).
Proof.
  intros H. destruct s; simpl; now rewrite H.
Qed.

Lemma search_first (p : pattern) (pre m post : str) :
  match_here p (m ++ post) = Some post ->
  (forall j, j < length pre -> match_here p (skipn j (pre ++ m ++ post)) = None) ->
  search p (pre ++ m ++ post) = Some (length pre, m).
Proof.
  intros Hm. induction pre as [|c pre IH]; intros Hmin.
  - simpl. rewrite (search_here _ _ _ Hm). now rewrite matched_app.
  - pose proof (Hmin 0 ltac:(simpl; lia)) as H0. simpl in H0 |- *.
    rewrite H0, IH; [reflexivity|].
    intros j Hj. apply (Hmin (S j)). simpl. lia.
Qed.

Lemma search_complete (p : pattern) (pre m post : str) :
  matches p m -> search p (pre ++ m ++ post) <> None.
Proof.
  intros Hm F. apply (search_None _ _ (length pre)) in F.
  rewrite skipn_app, skipn_all, Nat.sub_diag in F. simpl in F.
  now apply (match_here_complete _ _ post) in Hm.
Qed.

(** No text of the pattern's language starts before the match that
    [search] returns. *)
Lemma search_leftmost (p : pattern) (s : str) (k : nat) (m : str) :
  search p s = Some (k, m) ->
  forall pre' m' post',
    s = pre' ++ m' ++ post' -> matches p m' -> k <= length pre'.
Proof.
  intros H pre' m' post' E Hm'.
  destruct (search_Some _ _ _ _ H) as (_ & _ & _ & _ & _ & Hmin).
  destruct (Nat.le_gt_cases k (length pre')) as [L|L]; [assumption|].
  exfalso. specialize (Hmin _ L). rewrite E in Hmin.
  rewrite skipn_app, skipn_all, Nat.sub_diag in Hmin. simpl in Hmin.
  now apply (match_here_complete _ _ post') in Hm'.
Qed.

End ReFacts.

(** ** The link to the previous post *)

Section PreviousLink.

Variable find_article_index : Article -> list Article -> option nat.

Lemma last_app_singleton (front rest : list Article) (p d : Article) :
  front ++ [p] = d :: rest -> last rest d = p.
Proof.
  revert d rest; induction front as [|x front IH]; intros d rest E; simpl in E.
  - injection E as <- <-. reflexivity.
  - injection E as <- <-. destruct front as [|y front]; [reflexivity|].
    simpl app. change (last ((y :: front) ++ [p]) x = p).
    now rewrite last_last.
Qed.

(** The entry the link is made to: when the lookup reports an index inside
    the listing, entry [i - 1] for an article found at [i > 0], none for an
    article found at 0, the last entry for an article not found, and none
    whenever the listing is empty. *)
Lemma previous_article_by_listing (article : Article) (listing : list Article) :
  (forall i, find_article_index article listing = Some i -> i < length listing) ->
  let previous_article := previous_article_of find_article_index article listing in
  (forall i, find_article_index article listing = Some i -> 0 < i ->
             exists p, nth_error listing (i - 1) = Some p
                       /\ previous_article = Ok (link_to p))
  /\ (find_article_index article listing = Some 0 -> previous_article = Ok NoPrev)
  /\ (find_article_index article listing = None ->
      forall front p, listing = front ++ [p] -> previous_article = Ok (link_to p))
  /\ (listing = [] -> previous_article = Ok NoPrev).
Proof.
  intros Hrange previous_article. subst previous_article.
  unfold previous_article_of, link_to. repeat split.
  - intros i Hi Hpos. rewrite Hi.
    pose proof (Hrange _ Hi) as Hlt.
    replace (0 <=? Z.of_nat i - 1)%Z with true by (symmetry; apply Z.leb_le; lia).
    replace (Z.to_nat (Z.of_nat i - 1)) with (i - 1) by lia.
    destruct (nth_error listing (i - 1)) as [p|] eqn:E.
    + now exists p.
    + apply nth_error_None in E. lia.
  - intros ->. reflexivity.
  - intros -> front p ->. destruct (front ++ [p]) as [|d rest] eqn:E.
    + now destruct front.
    + now rewrite (last_app_singleton _ _ _ _ E).
  - intros ->. destruct (find_article_index article []) as [i|] eqn:E.
    + specialize (Hrange _ eq_refl). simpl in Hrange. lia.
    + reflexivity.
Qed.

End PreviousLink.

Lemma site_lookup_in_range (article : Article) (listing : list Article) (i : nat) :
  Site.find_article_index article listing = Some i -> i < length listing.
Proof.
  revert i; induction listing as [|other rest IH]; intros i H; simpl in H.
  - discriminate.
  - destruct (_ && _).
    + injection H as <-. simpl. lia.
    + destruct (Site.find_article_index article rest) as [j|]; [|discriminate].
      injection H as <-. specialize (IH _ eq_refl). simpl. lia.
Qed.

(** ** The preview of an article *)

(** C3: on the body [<p>Intro.</p><p>More.</p>] the first fragment of the
    split is empty, and taking the first character of its stripped text
    raises [IndexError]: no preview is returned. *)
Theorem extract_article_preview_intro_more
  (html_path : Article -> str) (article : Article) :
  extract_article_preview html_path (fun _ => lit "<p>Intro.</p><p>More.</p>") article
  = Raise IndexError.
Proof. reflexivity. Qed.

(** Any text that starts with [<p>] has an empty first fragment, and the
    same [IndexError]. *)
Lemma extract_preview_leading_paragraph (article : Article) (rest : str) :
  extract_preview_from article (P_OPEN ++ rest) = Raise IndexError.
Proof.
  unfold extract_preview_from, PyStr.split. cbn [PyStr.split_from].
  replace (PyStr.find P_OPEN (P_OPEN ++ rest)) with (Some 0); reflexivity.
Qed.

Lemma slice_to_neg_firstn (s : str) (k : nat) :
  k < length s -> PyStr.slice_to_neg s (length s - k) = firstn k s.
Proof.
  intros H. unfold PyStr.slice_to_neg.
  destruct (length s - k) as [|n] eqn:E; [lia|].
  f_equal. lia.
Qed.

Lemma firstn_prefix (a b : str) : firstn (length a) (a ++ b) = a.
Proof.
  rewrite firstn_app, Nat.sub_diag, firstn_all. simpl. apply app_nil_r.
Qed.

(** C4: the removal of the closing tag cuts the intro text at its last
    [</p>], dropping that tag and all that follows it, whenever the text
    has one; when it has none, the search of the reversed text raises
    [ValueError] and nothing is returned, as for a body without any [<p>]
    that starts with a tag, whose intro text is empty. *)
Theorem strip_closing_tag_spec (intro_text : str) :
  (forall a b, intro_text = a ++ P_CLOSE ++ b ->
               last_occurrence P_CLOSE intro_text (length a) ->
               strip_closing_tag intro_text = Ok a)
  /\ (occurs P_CLOSE intro_text ->
      exists a b, intro_text = a ++ P_CLOSE ++ b
                  /\ last_occurrence P_CLOSE intro_text (length a)
                  /\ strip_closing_tag intro_text = Ok a)
  /\ (~ occurs P_CLOSE intro_text ->
      strip_closing_tag intro_text = Raise (ValueError "substring not found"))
  /\ (forall article article_text,
         PyStr.find P_OPEN article_text = None ->
         PyStr.head (PyStr.strip article_text) = Ok "<"%char ->
         extract_preview_from article article_text
         = Raise (ValueError "substring not found")).
Proof.
  assert (Hcut : forall a b, intro_text = a ++ P_CLOSE ++ b ->
               last_occurrence P_CLOSE intro_text (length a) ->
               strip_closing_tag intro_text = Ok a).
  { intros a b E Hlast. unfold strip_closing_tag, PyStr.index, PyStr.reversed.
    change (lit ">p/<") with (rev P_CLOSE).
    rewrite (PyStrFacts.find_rev_last _ _ _ Hlast). simpl bind.
    assert (Hlen : length intro_text = length a + 4 + length b).
    { rewrite E, !length_app. simpl. lia. }
    replace (length intro_text - length a - 4 + 4)
      with (length intro_text - length a) by lia.
    rewrite slice_to_neg_firstn by lia.
    rewrite E. now rewrite firstn_prefix. }
  repeat split.
  - exact Hcut.
  - intros Hocc. destruct (PyStrFacts.last_occurrence_exists _ _ Hocc) as [k Hk].
    destruct Hk as [(a & b & E & <-) Hl].
    exists a, b. split; [assumption|]. split.
    + split; [now exists a, b|assumption].
    + apply (Hcut a b E). split; [now exists a, b|assumption].
  - intros Hnone. unfold strip_closing_tag, PyStr.index, PyStr.reversed.
    change (lit ">p/<") with (rev P_CLOSE).
    now rewrite (PyStrFacts.find_rev_none _ _ Hnone).
  - intros article article_text Hfind Hhead.
    unfold extract_preview_from, PyStr.split. simpl PyStr.split_from.
    rewrite Hfind. simpl collect_intro. rewrite Hhead. reflexivity.
Qed.

(** The intro text [<p>Intro.</p><p>More.</p> tail] is cut at its second
    [</p>]. *)
Lemma strip_closing_tag_spec_witness :
  strip_closing_tag (lit "<p>Intro.</p><p>More.</p> tail")
  = Ok (lit "<p>Intro.</p><p>More.").
Proof.
  destruct (strip_closing_tag_spec (lit "<p>Intro.</p><p>More.</p> tail"))
    as (H & _).
  apply (H (lit "<p>Intro.</p><p>More.") (lit " tail") eq_refl).
  split.
  - now exists (lit "<p>Intro.</p><p>More."), (lit " tail").
  - intros j Hj Hocc.
    pose proof (PyStrFacts.occurs_at_bound _ _ _ Hocc) as Hb.
    simpl in Hj, Hb.
    assert (Hc : j = 22 \/ j = 23 \/ j = 24 \/ j = 25 \/ j = 26) by lia.
    destruct Hocc as (a & b & E & Ha).
    assert (Ea : a = firstn j (lit "<p>Intro.</p><p>More.</p> tail")).
    { rewrite E, <- Ha. now rewrite firstn_prefix. }
    assert (Eb : P_CLOSE ++ b = skipn j (lit "<p>Intro.</p><p>More.</p> tail")).
    { rewrite E, <- Ha. now rewrite skipn_app, skipn_all, Nat.sub_diag. }
    destruct Hc as [->|[->|[->|[->| ->]]]]; discriminate Eb.
Defined.

(** ** The landing page and the listing *)

Section Landing.

Variable find_article_index : Article -> list Article -> option nat.
Variable human_readable_pub_date : Article -> str.
Variable html_path : Article -> str.
Variable read_complete_file : str -> str.
Variable configuration : Configuration.
Variable today_strftime : string -> str.
Variable format : str -> list (string * str) -> str + string.

Local Abbreviation extract := (extract_article_preview html_path read_complete_file).
Local Abbreviation preview_html := (generate_preview_html human_readable_pub_date).

Lemma aggregate_previews_ok (ps : list ArticlePreview) (acc : str) :
  aggregate_previews human_readable_pub_date (map Ok ps) acc
  = Ok (acc ++ concat (map (fun p => preview_html p ++ nl ++ nl) ps)).
Proof.
  revert acc; induction ps as [|p ps IH]; intros acc;
    cbn [aggregate_previews map bind concat].
  - now rewrite app_nil_r.
  - rewrite IH. now rewrite <- !app_assoc.
Qed.

Lemma extract_keeps_article (a : Article) (p : ArticlePreview) :
  extract a = Ok p -> preview_article p = a.
Proof.
  unfold extract_article_preview, extract_preview_from. intros H.
  destruct (collect_intro _ _); simpl in H; [|discriminate H].
  destruct (strip_closing_tag _); simpl in H; [|discriminate H].
  now injection H as <-.
Qed.

Lemma extracted_articles (l : list Article) (ps : list ArticlePreview) :
  map extract l = map Ok ps -> map preview_article ps = l.
Proof.
  revert ps; induction l as [|a l IH]; intros [|p ps] E; simpl in E;
    try discriminate; [reflexivity|].
  injection E as Ea El. simpl. f_equal; [now apply extract_keeps_article|now apply IH].
Qed.

(** C7: when every preview can be extracted, the content of the landing
    page is the previews of the listing taken from its last entry to its
    first, each followed by two line ends, so that for a listing [[A; B]]
    the preview of [B] comes first, a blank line apart from that of [A]. *)
Theorem landing_page_reverse_order (template_path : str) :
  (forall listing ps,
      map extract (rev listing) = map Ok ps ->
      map preview_article ps = rev listing
      /\ landing_result
           (generate_landing_page human_readable_pub_date html_path read_complete_file
              configuration today_strftime format template_path listing)
         = run_format format (read_complete_file template_path)
             (page_fields configuration today_strftime (blog_title configuration) []
                (concat (map (fun p => preview_html p ++ nl ++ nl) ps)) []))
  /\ (forall A B pA pB,
         extract A = Ok pA -> extract B = Ok pB ->
         landing_content human_readable_pub_date html_path read_complete_file [A; B]
         = Ok (preview_html pB ++ nl ++ nl ++ preview_html pA ++ nl ++ nl)).
Proof.
  split.
  - intros listing ps E. split; [now apply extracted_articles|].
    unfold generate_landing_page, create_article_previews.
    cbn [previews landing_result].
    rewrite E, aggregate_previews_ok. reflexivity.
  - intros A B pA pB EA EB.
    unfold landing_content, create_article_previews.
    cbn [previews rev app map]. rewrite EA, EB.
    cbn [aggregate_previews bind app].
    now rewrite <- !app_assoc.
Qed.

(** C8, as the code has it: [generate_post] leaves the list it read as it
    was; [create_article_previews] and [generate_landing_page] leave theirs
    reversed in place, the same records in the opposite order. *)
Theorem listing_after_operations (article : Article) (template_path : str)
  (listing : list Article) :
  post_listing
    (generate_post find_article_index human_readable_pub_date read_complete_file
       configuration today_strftime format article template_path listing) = listing
  /\ previews_listing (create_article_previews html_path read_complete_file listing)
     = rev listing
  /\ landing_listing
       (generate_landing_page human_readable_pub_date html_path read_complete_file
          configuration today_strftime format template_path listing) = rev listing
  /\ Permutation listing (rev listing).
Proof.
  repeat split.
  - unfold generate_post. now destruct (find_title_match (html article)).
  - apply Permutation_rev.
Qed.

(** C9: a second run of [generate_post] on the article the first run left,
    with the same listing, files, configuration and date, returns or raises
    what the first did, and leaves the same article. *)
Theorem generate_post_twice (article : Article) (template_path : str)
  (listing : list Article) :
  let run a l :=
    generate_post find_article_index human_readable_pub_date read_complete_file
      configuration today_strftime format a template_path l in
  let first := run article listing in
  let second := run (post_article first) (post_listing first) in
  post_result second = post_result first
  /\ post_article second = post_article first.
Proof.
  cbv zeta. unfold generate_post.
  destruct (find_title_match (html article)) as [m|] eqn:E;
    cbn [post_article post_listing post_result].
  - change (html (set_title article (title_of_match m))) with (html article).
    rewrite E. cbn [post_article post_result].
    change (set_title (set_title article (title_of_match m)) (title_of_match m))
      with (set_title article (title_of_match m)).
    split; reflexivity.
  - rewrite E. split; reflexivity.
Qed.

End Landing.

(** C8, as the claim has it: the list [[A; B]] that
    [create_article_previews] read does not keep its order. *)
Lemma listing_order_not_kept :
  ~ (forall html_path read_complete_file listing,
        previews_listing (create_article_previews html_path read_complete_file listing)
        = listing).
Proof.
  intros H.
  specialize (H Site.html_path Site.read_complete_file [Site.A; Site.B]).
  discriminate H.
Qed.

(** The landing page of the listing [[A; B]] of the site. *)
Lemma landing_page_reverse_order_witness :
  exists pA pB,
    extract_article_preview Site.html_path Site.read_complete_file Site.A = Ok pA
    /\ extract_article_preview Site.html_path Site.read_complete_file Site.B = Ok pB
    /\ landing_content Site.human_readable_pub_date Site.html_path
         Site.read_complete_file [Site.A; Site.B]
       = Ok (generate_preview_html Site.human_readable_pub_date pB ++ nl ++ nl
             ++ generate_preview_html Site.human_readable_pub_date pA ++ nl ++ nl).
Proof.
  eexists. eexists. split; [reflexivity|]. split; [reflexivity|].
  refine (proj2 (landing_page_reverse_order Site.human_readable_pub_date
                   Site.html_path Site.read_complete_file Site.configuration
                   Site.today_strftime Site.format (lit "template.html"))
            Site.A Site.B _ _ _ _); reflexivity.
Defined.

(** ** Regions between two markers *)

Module Delimited.
Import Re ReFacts.

Lemma dot_all (w : str) : forallb (cmatch (Dot true)) w = true.
Proof. induction w; simpl; auto. Qed.

Lemma dot_one_line (w : str) :
  forallb (cmatch (Dot false)) w = true <-> one_line w.
Proof.
  unfold one_line. induction w as [|a w IH]; simpl.
  - tauto.
  - rewrite andb_true_iff, IH. destruct (Ascii.eqb a newline) eqn:E; simpl.
    + apply Ascii.eqb_eq in E. subst a. intuition congruence.
    + apply Ascii.eqb_neq in E. intuition congruence.
Qed.

Lemma dot_forallb (d : bool) (w : str) :
  forallb (cmatch (Dot d)) w = true <-> (d = false -> one_line w).
Proof.
  destruct d.
  - split; [discriminate|intros _; apply dot_all].
  - rewrite dot_one_line. tauto.
Qed.

Lemma matches_delimited (o c : str) (d : bool) (m : str) :
  matches (delimited_re o c d) m <->
  exists inner, m = o ++ inner ++ c /\ inner <> [] /\ (d = false -> one_line inner).
Proof.
  simpl. split.
  - intros (m1 & -> & a & w & m2 & -> & Ca & Hw & m3 & -> & ->).
    exists (a :: w). rewrite app_nil_r. repeat split; try discriminate.
    apply dot_forallb. simpl. now rewrite Ca, Hw.
  - intros (inner & -> & Hne & Hd). destruct inner as [|a w]; [congruence|].
    apply dot_forallb in Hd. simpl in Hd. apply andb_true_iff in Hd as [Ca Hw].
    exists ((a :: w) ++ c). split; [reflexivity|].
    exists a, w, c. repeat split; try assumption.
    exists []. now rewrite app_nil_r.
Qed.

(** [re.search] finds the pattern exactly in the texts that hold such a
    region. *)
Lemma search_delimited (o c : str) (d : bool) (s : str) :
  search_group (delimited_re o c d) s <> None <-> delimited o c d s.
Proof.
  unfold search_group. split.
  - intros H. destruct (search (delimited_re o c d) s) as [[k m]|] eqn:E;
      [|now elim H].
    destruct (search_Some _ _ _ _ E) as (pre & post & -> & _ & Hm & _).
    destruct (match_here_sound _ _ _ Hm) as (m' & Em & Hm').
    apply app_inv_tail in Em. subst m'.
    apply matches_delimited in Hm' as (inner & -> & Hne & Hd).
    exists pre, inner, post. rewrite <- !app_assoc. auto.
  - intros (pre & inner & post & -> & Hne & Hd) H.
    assert (M : matches (delimited_re o c d) (o ++ inner ++ c)).
    { apply matches_delimited. now exists inner. }
    apply (search_complete _ pre _ post) in M.
    rewrite <- !app_assoc in M.
    destruct (search _ _); [discriminate|congruence].
Qed.

Lemma search_delimited_none (o c : str) (d : bool) (s : str) :
  search_group (delimited_re o c d) s = None <-> ~ delimited o c d s.
Proof.
  rewrite <- search_delimited.
  destruct (search_group _ s) as [m|].
  - split; [discriminate|]. intros H. exfalso. apply H. discriminate.
  - split; [intros _ H; now apply H|reflexivity].
Qed.

End Delimited.

(** ** Articles without a heading *)

Lemma find_title_match_none (html : str) :
  find_title_match html = None <-> ~ has_h1 html /\ ~ has_title_block html.
Proof.
  unfold find_title_match, has_h1, has_title_block.
  rewrite <- !Delimited.search_delimited_none.
  change H1_RE with (delimited_re (lit "<h1>") (lit "</h1>") false).
  change H2_TITLE_RE with (delimited_re H2_TITLE_OPEN (lit "</a>") false).
  destruct (Re.search_group (delimited_re (lit "<h1>") _ _) html).
  - split; [discriminate|intros [? _]; discriminate].
  - tauto.
Qed.

Section Heading.

Variable find_article_index : Article -> list Article -> option nat.
Variable human_readable_pub_date : Article -> str.
Variable read_complete_file : str -> str.
Variable configuration : Configuration.
Variable today_strftime : string -> str.
Variable format : str -> list (string * str) -> str + string.


Lemma run_format_not_heading_error (t : str) (kw : list (string * str)) :
  run_format format t kw <> Raise HEADING_ERROR.
Proof.
  unfold run_format. destruct (format t kw); discriminate.
Qed.

(** The page of an article with a heading: the content section, the link to
    the previous post, and the template applied to them. *)
Lemma generate_post_page (article : Article) (template_path : str)
  (listing : list Article) (m : str) :
  find_title_match (html article) = Some m ->
  let titled := set_title article (title_of_match m) in
  post_result
    (generate_post find_article_index human_readable_pub_date read_complete_file
       configuration today_strftime format article template_path listing)
  = (article_content_html <-
       post_content human_readable_pub_date titled m (title_of_match m) ;;
     previous_article <- previous_article_of find_article_index titled listing ;;
     run_format format (read_complete_file template_path)
       (page_fields configuration today_strftime (title_of_match m)
          (nav_bar_of previous_article) article_content_html (lit "../"))).
Proof.
  intros E. unfold generate_post. now rewrite E.
Qed.

(** C2: [generate_post] raises its [ValueError] exactly for an article that
    has neither a level-1 heading nor the title block of a preview, a
    heading being [<h1>], at least one character on one line, and [</h1>],
    and a title block the opening tag of the title, at least one character
    on one line, and [</a>]; the error is the outcome of the call, no page
    is returned, and the article is left as it was. *)
Theorem generate_post_heading_error (article : Article) (template_path : str)
  (listing : list Article) :
  let outcome :=
    generate_post find_article_index human_readable_pub_date read_complete_file
      configuration today_strftime format article template_path listing in
  (post_result outcome = Raise HEADING_ERROR <->
   ~ has_h1 (html article) /\ ~ has_title_block (html article))
  /\ (~ has_h1 (html article) /\ ~ has_title_block (html article) ->
      (forall page, post_result outcome <> Ok page)
      /\ post_article outcome = article).
Proof.
  cbv zeta. rewrite <- find_title_match_none. unfold generate_post.
  destruct (find_title_match (html article)) as [m|] eqn:E;
    cbn [post_result post_article].
  - split; [|intros H; discriminate H].
    split; [|intros H; discriminate H].
    intros H. exfalso. revert H.
    destruct (post_content _ _ _ _) as [content|e] eqn:Ec; cbn [bind].
    + destruct (previous_article_of _ _ _) as [prev|e] eqn:Ep; cbn [bind].
      * apply run_format_not_heading_error.
      * unfold previous_article_of in Ep.
        destruct (find_article_index _ _); [|destruct listing; discriminate Ep].
        destruct (0 <=? _)%Z; [|discriminate Ep].
        destruct (nth_error _ _); [discriminate Ep|].
        injection Ep as <-. discriminate.
    + unfold post_content in Ec.
      destruct (PyStr.split _ _); [|discriminate Ec].
      injection Ec as <-. discriminate.
  - split; [tauto|]. intros _. split; [discriminate|reflexivity].
Qed.

End Heading.

(** An article with no heading at all. *)
Lemma generate_post_heading_error_witness :
  post_result
    (generate_post Site.find_article_index Site.human_readable_pub_date
       Site.read_complete_file Site.configuration Site.today_strftime Site.format
       (Site.post "e" "<p>No heading here.</p>") (lit "template.html")
       [Site.A; Site.B]) = Raise HEADING_ERROR.
Proof.
  assert (H : ~ has_h1 (html (Site.post "e" "<p>No heading here.</p>"))
              /\ ~ has_title_block (html (Site.post "e" "<p>No heading here.</p>"))).
  { apply (proj1 (find_title_match_none _)). reflexivity. }
  exact (proj2 (proj1 (generate_post_heading_error Site.find_article_index
            Site.human_readable_pub_date Site.read_complete_file Site.configuration
            Site.today_strftime Site.format
            (Site.post "e" "<p>No heading here.</p>") (lit "template.html")
            [Site.A; Site.B])) H).
Defined.

(** ** The publication marker *)

Module PubDate.
Import Re ReFacts.

Lemma matches_pub_marker (m : str) : matches PUB_DATE_RE m <-> pub_marker m.
Proof.
  unfold PUB_DATE_RE, pub_marker, all_space. cbn [matches]. split.
  - intros (m1 & -> & w1 & m2 & -> & Hw1 & m3 & -> & w2 & m4 & -> & Hw2
            & a & w & m5 & -> & Ca & Hw & m6 & -> & ->).
    exists w1, w2, (a :: w). rewrite app_nil_r.
    repeat split; try assumption; try discriminate.
    apply Delimited.dot_one_line. cbn [forallb]. now rewrite Ca, Hw.
  - intros (w1 & w2 & value & -> & Hw1 & Hw2 & Hne & Hline).
    destruct value as [|a w]; [congruence|].
    apply Delimited.dot_one_line in Hline. cbn [forallb] in Hline.
    apply andb_true_iff in Hline as [Ca Hw].
    eexists. split; [reflexivity|].
    exists w1. eexists. split; [reflexivity|]. split; [assumption|].
    eexists. split; [reflexivity|].
    exists w2. eexists. split; [reflexivity|]. split; [assumption|].
    exists a, w. eexists. split; [reflexivity|]. repeat (split; [assumption|]).
    exists []. now rewrite app_nil_r.
Qed.

(** What a match of the pattern looks like: after the first character of
    the value, the value runs to the first closing delimiter. *)
Lemma match_here_pub_date (s r : str) :
  match_here PUB_DATE_RE s = Some r ->
  exists ws1 ws2 c v,
    s = (lit "<Published" ++ ws1 ++ lit "=" ++ ws2 ++ c :: v ++ lit ">") ++ r
    /\ all_space ws1 /\ all_space ws2
    /\ c <> newline /\ one_line v /\ ~ In ">"%char v.
Proof.
  unfold PUB_DATE_RE. cbn [match_here]. intros H.
  destruct (strip_prefix (lit "<Published") s) as [s1|] eqn:E1; [|discriminate].
  apply strip_prefix_Some in E1. subst s.
  apply star_greedy_sound in H as (ws1 & x & -> & Hw1 & H).
  destruct (strip_prefix (lit "=") x) as [s2|] eqn:E2; [|discriminate].
  apply strip_prefix_Some in E2. subst x.
  apply star_greedy_sound in H as (ws2 & y & -> & Hw2 & H).
  destruct y as [|c y]; [discriminate|].
  destruct (cmatch (Dot false) c) eqn:Cc; [|discriminate].
  apply star_lazy_sound in H as (v & z & -> & Hv & H & Hmin).
  destruct (strip_prefix (lit ">") z) as [z'|] eqn:E3; [|discriminate].
  apply strip_prefix_Some in E3. subst z. injection H as ->.
  exists ws1, ws2, c, v. repeat split; try assumption.
  - reassoc.
  - simpl in Cc. intros ->. discriminate Cc.
  - now apply Delimited.dot_one_line.
  - intros Hin. apply in_split in Hin as (v1 & v2 & ->).
    specialize (Hmin v1 (">"%char :: v2) eq_refl ltac:(discriminate)).
    discriminate Hmin.
Qed.

End PubDate.

(** C5, as the code has it: on a text that holds a publication marker,
    [extract_pub_date] returns, verbatim, a marker that starts where the
    first marker of the text starts; the value of the returned marker has at
    least one character, lies on one line, and holds no closing delimiter
    after its first character.  On a text that holds no marker it returns
    [None]. *)
Theorem extract_pub_date_spec (html : str) :
  (has_pub_marker html ->
   exists k m,
     extract_pub_date html = Some m
     /\ pub_marker_at html k m
     /\ (forall k' m', pub_marker_at html k' m' -> k <= k')
     /\ exists ws1 ws2 c v,
          m = lit "<Published" ++ ws1 ++ lit "=" ++ ws2 ++ c :: v ++ lit ">"
          /\ all_space ws1 /\ all_space ws2
          /\ c <> Re.newline /\ one_line v /\ ~ In ">"%char v)
  /\ (~ has_pub_marker html -> extract_pub_date html = None).
Proof.
  assert (Hsome : forall k m, Re.search PUB_DATE_RE html = Some (k, m) ->
     pub_marker_at html k m
     /\ (forall k' m', pub_marker_at html k' m' -> k <= k')
     /\ exists ws1 ws2 c v,
          m = lit "<Published" ++ ws1 ++ lit "=" ++ ws2 ++ c :: v ++ lit ">"
          /\ all_space ws1 /\ all_space ws2
          /\ c <> Re.newline /\ one_line v /\ ~ In ">"%char v).
  { intros k m E.
    destruct (ReFacts.search_Some _ _ _ _ E) as (pre & post & Eh & Hk & Hm & _).
    destruct (ReFacts.match_here_sound _ _ _ Hm) as (m' & Em & Hm').
    apply app_inv_tail in Em. subst m'.
    destruct (PubDate.match_here_pub_date _ _ Hm)
      as (ws1 & ws2 & c & v & Es & Hshape).
    apply app_inv_tail in Es.
    split; [|split].
    - split; [now exists pre, post|now apply PubDate.matches_pub_marker].
    - intros k' m' [(pre' & post' & Eh' & Hk') Hp]. rewrite <- Hk'.
      apply (ReFacts.search_leftmost _ _ _ _ E pre' m' post' Eh').
      now apply PubDate.matches_pub_marker.
    - now exists ws1, ws2, c, v. }
  unfold extract_pub_date, Re.search_group. split.
  - intros (k0 & m0 & (pre & post & -> & Hk0) & Hp).
    apply PubDate.matches_pub_marker in Hp.
    pose proof (ReFacts.search_complete _ pre _ post Hp) as Hc.
    destruct (Re.search PUB_DATE_RE (pre ++ m0 ++ post)) as [[k m]|] eqn:E;
      [|congruence].
    exists k, m. split; [reflexivity|]. now apply Hsome.
  - intros Hnone.
    destruct (Re.search PUB_DATE_RE html) as [[k m]|] eqn:E; [|reflexivity].
    exfalso. apply Hnone. exists k, m. now apply Hsome.
Qed.

(** C5, as the claim has it: the match returned for [<Published=>>] holds a
    closing delimiter before its last character. *)
Lemma pub_date_value_may_hold_delimiter :
  ~ (forall html m, extract_pub_date html = Some m -> ~ In ">"%char (removelast m)).
Proof.
  intros H. apply (H (lit "<Published=>>") (lit "<Published=>>") eq_refl).
  simpl. tauto.
Qed.

(** A page with a marker in its second line. *)
Lemma extract_pub_date_spec_witness :
  exists k m,
    extract_pub_date
      (lit "<h1>T</h1>" ++ nl ++ lit "<Published = 2016-01-02>" ++ nl ++ lit "<p>x</p>")
    = Some m
    /\ pub_marker_at
         (lit "<h1>T</h1>" ++ nl ++ lit "<Published = 2016-01-02>" ++ nl ++ lit "<p>x</p>")
         k m.
Proof.
  destruct (extract_pub_date_spec
    (lit "<h1>T</h1>" ++ nl ++ lit "<Published = 2016-01-02>" ++ nl ++ lit "<p>x</p>"))
    as [H _].
  destruct H as (k & m & E & Hat & _).
  - exists 11, (lit "<Published = 2016-01-02>"). split.
    + now exists (lit "<h1>T</h1>" ++ nl), (nl ++ lit "<p>x</p>").
    + exists (lit " "), (lit " "), (lit "2016-01-02").
      repeat split; try reflexivity; try discriminate.
      unfold one_line. simpl. intros Hin.
      repeat (destruct Hin as [Hin|Hin]; [discriminate Hin|]). exact Hin.
  - now exists k, m.
Defined.

(** ** The first region between two markers *)

Module FirstRegion.
Import Re ReFacts.

(** One of two prefixes of a text is a prefix of the other. *)
Lemma app_eq_shorter (a x b y : str) :
  a ++ x = b ++ y -> length b < length a ->
  exists w, a = b ++ w /\ w <> [] /\ y = w ++ x.
Proof.
  intros E L. apply app_eq_app in E as [l [[-> ->]|[-> ->]]].
  - exists l. repeat split. intros ->. rewrite app_nil_r in L. lia.
  - rewrite length_app in L. lia.
Qed.

Lemma match_here_delimited (o c : str) (d : bool) (s r : str) :
  match_here (delimited_re o c d) s = Some r ->
  exists inner,
    s = (o ++ inner ++ c) ++ r
    /\ inner <> [] /\ (d = false -> one_line inner)
    /\ forall inner' r',
         inner' <> [] -> inner ++ c ++ r = inner' ++ c ++ r' ->
         length inner <= length inner'.
Proof.
  unfold delimited_re. cbn [match_here]. intros H.
  destruct (strip_prefix o s) as [s1|] eqn:E1; [|discriminate].
  apply strip_prefix_Some in E1. subst s.
  destruct s1 as [|a s1]; [discriminate|].
  destruct (cmatch (Dot d) a) eqn:Ca; [|discriminate].
  apply star_lazy_sound in H as (w & z & -> & Hw & H & Hmin).
  destruct (strip_prefix c z) as [z'|] eqn:E3; [|discriminate].
  apply strip_prefix_Some in E3. subst z. injection H as ->.
  exists (a :: w). repeat split.
  - reassoc.
  - discriminate.
  - apply Delimited.dot_forallb. cbn [forallb]. now rewrite Ca, Hw.
  - intros inner' r' Hne E.
    destruct (Nat.le_gt_cases (length (a :: w)) (length inner')) as [L|L];
      [assumption|exfalso].
    destruct (app_eq_shorter _ _ _ _ E L) as (w2 & Ew & Hw2 & Er).
    destruct inner' as [|a' w1]; [congruence|].
    simpl in Ew. injection Ew as <- ->.
    specialize (Hmin w1 w2 eq_refl Hw2).
    rewrite <- Er, strip_prefix_app in Hmin. discriminate Hmin.
Qed.

(** The region [re.search] returns: the first that starts in the text, and
    the shortest that starts there. *)
Lemma search_delimited_first (o c : str) (d : bool) (s : str) (k : nat) (m : str) :
  search (delimited_re o c d) s = Some (k, m) ->
  exists pre inner post,
    s = pre ++ o ++ inner ++ c ++ post /\ length pre = k /\ m = o ++ inner ++ c
    /\ inner <> [] /\ (d = false -> one_line inner)
    /\ (forall pre' inner' post',
           s = pre' ++ o ++ inner' ++ c ++ post' -> inner' <> [] ->
           (d = false -> one_line inner') -> length pre <= length pre')
    /\ (forall inner' post',
           inner' <> [] -> inner ++ c ++ post = inner' ++ c ++ post' ->
           length inner <= length inner').
Proof.
  intros E.
  destruct (search_Some _ _ _ _ E) as (pre & post & Es & Hk & Hm & _).
  destruct (match_here_delimited _ _ _ _ _ Hm) as (inner & Em & Hne & Hd & Hshort).
  apply app_inv_tail in Em. subst m.
  exists pre, inner, post. repeat split; try assumption.
  - rewrite Es. f_equal. reassoc.
  - intros pre' inner' post' Es' Hne' Hd'. rewrite Hk.
    apply (search_leftmost _ _ _ _ E pre' (o ++ inner' ++ c) post').
    + rewrite Es'. f_equal. reassoc.
    + apply Delimited.matches_delimited. now exists inner'.
Qed.

End FirstRegion.

(** The region [preprocess_raw_html] works on: it returns exactly on the
    texts that hold [<article>], then at least one character (a newline
    counts), then [</section>]; it takes the first region of that form, the
    shortest that starts there, and passes it through its four calls of
    [replace].  On any other text the search gives [None] and the call of
    [group] raises [AttributeError]. *)
Lemma preprocess_raw_html_spec (raw_html : str) :
  (delimited (lit "<article>") (lit "</section>") true raw_html ->
   exists pre inner post,
     raw_html = pre ++ lit "<article>" ++ inner ++ lit "</section>" ++ post
     /\ inner <> []
     /\ (forall pre' inner' post',
            raw_html = pre' ++ lit "<article>" ++ inner' ++ lit "</section>" ++ post' ->
            inner' <> [] -> length pre <= length pre')
     /\ (forall inner' post',
            inner' <> [] ->
            inner ++ lit "</section>" ++ post = inner' ++ lit "</section>" ++ post' ->
            length inner <= length inner')
     /\ preprocess_raw_html raw_html
        = Ok (PyStr.replace (lit "<section class=" ++ q "article_content" ++ lit ">") []
                (PyStr.replace (lit "<section class=" ++ q "main_content" ++ lit ">") []
                   (PyStr.replace (lit "</section>") []
                      (PyStr.replace (lit "<article>") []
                         (lit "<article>" ++ inner ++ lit "</section>"))))))
  /\ (~ delimited (lit "<article>") (lit "</section>") true raw_html ->
      preprocess_raw_html raw_html = Raise AttributeError).
Proof.
  unfold preprocess_raw_html.
  change ARTICLE_RE with (delimited_re (lit "<article>") (lit "</section>") true).
  split.
  - intros Hd. apply Delimited.search_delimited in Hd.
    unfold Re.search_group in *.
    destruct (Re.search _ raw_html) as [[k m]|] eqn:E; [|now elim Hd].
    destruct (FirstRegion.search_delimited_first _ _ _ _ _ _ E)
      as (pre & inner & post & Es & _ & -> & Hne & _ & Hfirst & Hshort).
    exists pre, inner, post. repeat split; try assumption.
    intros pre' inner' post' Es' Hne'. apply (Hfirst pre' inner' post' Es' Hne').
    discriminate.
  - intros Hd. apply Delimited.search_delimited_none in Hd. now rewrite Hd.
Qed.

(** ** Replacing and substituting past a prefix *)

Module Rewriting.
Import PyStr Re PyStrFacts ReFacts.

Lemma differs_startswith (t p s : str) :
  differs t p = true -> startswith t (p ++ s) = false.
Proof.
  revert p; induction t as [|a t IH]; intros [|b p] H; simpl in *;
    try discriminate.
  destruct (Ascii.eqb a b); [now apply IH|reflexivity].
Qed.

Lemma clean_no_start (c0 : ascii) (t p : str) :
  ~ In c0 p -> no_start (c0 :: t) p = true.
Proof.
  induction p as [|b p IH]; intros H; simpl; [reflexivity|].
  destruct (Ascii.eqb c0 b) eqn:E.
  - apply Ascii.eqb_eq in E. subst b. elim H. now left.
  - apply IH. intros Hin. apply H. now right.
Qed.

Lemma find_skip (t p s : str) :
  no_start t p = true -> find t (p ++ s) = option_map (Nat.add (length p)) (find t s).
Proof.
  induction p as [|b p IH]; intros H; simpl in H |- *.
  - now destruct (find t s).
  - apply andb_true_iff in H as [Hd Hn].
    pose proof (differs_startswith t (b :: p) s Hd) as Hs. simpl in Hs.
    rewrite Hs, (IH Hn). now destruct (find t s).
Qed.

Lemma search_skip (t : str) (p' : pattern) (p s : str) :
  no_start t p = true ->
  search (Lit t :: p') (p ++ s) = shift_match (length p) (search (Lit t :: p') s).
Proof.
  induction p as [|b p IH]; intros H; simpl in H.
  - simpl. now destruct (search _ s) as [[k m]|].
  - apply andb_true_iff in H as [Hd Hn].
    pose proof (differs_startswith t (b :: p) s Hd) as Hs.
    apply strip_prefix_None in Hs.
    change ((b :: p) ++ s) with (b :: p ++ s) in *.
    cbn [search match_here]. rewrite Hs, (IH Hn).
    now destruct (search _ s) as [[k m]|].
Qed.

Lemma find_length (t s : str) (k : nat) :
  find t s = Some k -> k + length t <= length s.
Proof.
  intros H. apply find_Some in H as [H _]. now apply occurs_at_bound.
Qed.

(** The rounds [replace] is given are enough. *)
Lemma replace_from_fuel (old new : str) (n m : nat) (s : str) :
  old <> [] -> length s < n -> length s < m ->
  replace_from n old new s = replace_from m old new s.
Proof.
  intros Hold. revert m s; induction n as [|n IH]; intros [|m] s Hn Hm; try lia.
  simpl. destruct (find old s) as [k|] eqn:F; [|reflexivity].
  apply find_length in F. destruct old as [|c old]; [congruence|].
  simpl in F. do 2 f_equal. apply IH; rewrite length_skipn; simpl; lia.
Qed.

Lemma replace_step (old new s : str) :
  old <> [] ->
  replace old new s
  = match find old s with
    | None => s
    | Some k => firstn k s ++ new ++ replace old new (skipn (k + length old) s)
    end.
Proof.
  intros Hold. unfold replace at 1. simpl.
  destruct (find old s) as [k|] eqn:F; [|reflexivity].
  apply find_length in F. destruct old as [|c old]; [congruence|].
  simpl in F. do 2 f_equal. unfold replace.
  apply replace_from_fuel; [discriminate| |]; rewrite ?length_skipn; simpl; lia.
Qed.

Lemma replace_none (old new s : str) :
  old <> [] -> find old s = None -> replace old new s = s.
Proof.
  intros Hold F. now rewrite replace_step, F.
Qed.

Lemma replace_head (old new s : str) :
  old <> [] -> replace old new (old ++ s) = new ++ replace old new s.
Proof.
  intros Hold. rewrite replace_step by assumption.
  assert (F : find old (old ++ s) = Some 0).
  { destruct old; [congruence|]. simpl find.
    pose proof (startswith_app (a :: old) s) as H. simpl in H. now rewrite H. }
  rewrite F. simpl. now rewrite skipn_app, skipn_all, Nat.sub_diag.
Qed.

Lemma replace_skip (old new p s : str) :
  old <> [] -> no_start old p = true ->
  replace old new (p ++ s) = p ++ replace old new s.
Proof.
  intros Hold Hp. rewrite (replace_step old new (p ++ s)) by assumption.
  rewrite (find_skip _ _ s Hp), (replace_step old new s) by assumption.
  destruct (find old s) as [k|]; simpl; [|reflexivity].
  rewrite firstn_app, firstn_all2 by lia.
  replace (length p + k - length p) with k by lia.
  rewrite <- Nat.add_assoc, skipn_app, skipn_all2 by lia.
  replace (length p + (k + length old) - length p) with (k + length old) by lia.
  simpl. now rewrite <- app_assoc.
Qed.

Lemma search_length (p : pattern) (s : str) (k : nat) (m : str) :
  search p s = Some (k, m) -> k + length m <= length s.
Proof.
  intros H. apply search_Some in H as (pre & post & -> & <- & _).
  rewrite !length_app. lia.
Qed.

Lemma sub_from_fuel (t : str) (p : pattern) (repl : str) (n m : nat) (s : str) :
  t <> [] -> length s < n -> length s < m ->
  sub_from n (Lit t :: p) repl s = sub_from m (Lit t :: p) repl s.
Proof.
  intros Ht. revert m s; induction n as [|n IH]; intros [|m] s Hn Hm; try lia.
  cbn [sub_from]. destruct (search (Lit t :: p) s) as [[k x]|] eqn:F; [|reflexivity].
  pose proof (search_length _ _ _ _ F) as Hl.
  assert (Hx : 0 < length x).
  { apply search_Some in F as (_ & post & _ & _ & Hm' & _).
    apply match_here_sound in Hm' as (x' & E & Hx').
    apply app_inv_tail in E. subst x'. simpl in Hx'.
    destruct Hx' as (m' & -> & _). rewrite length_app.
    destruct t; [congruence|simpl; lia]. }
  do 2 f_equal. apply IH; rewrite length_skipn; lia.
Qed.

Lemma sub_step (t : str) (p : pattern) (repl s : str) :
  t <> [] ->
  sub (Lit t :: p) repl s
  = match search (Lit t :: p) s with
    | None => s
    | Some (k, m) =>
        firstn k s ++ repl ++ sub (Lit t :: p) repl (skipn (k + length m) s)
    end.
Proof.
  intros Ht. unfold sub at 1. cbn [sub_from].
  destruct (search (Lit t :: p) s) as [[k x]|] eqn:F; [|reflexivity].
  pose proof (search_length _ _ _ _ F) as Hl.
  assert (Hx : 0 < length x).
  { apply search_Some in F as (_ & post & _ & _ & Hm' & _).
    apply match_here_sound in Hm' as (x' & E & Hx').
    apply app_inv_tail in E. subst x'. simpl in Hx'.
    destruct Hx' as (m' & -> & _). rewrite length_app.
    destruct t; [congruence|simpl; lia]. }
  do 2 f_equal. unfold sub.
  apply sub_from_fuel; [assumption| |]; rewrite ?length_skipn; lia.
Qed.

End Rewriting.

(** ** The title of a post *)

Module Title.
Import PyStr Re PyStrFacts ReFacts Rewriting.

Lemma occurs_at_skipn (t s : str) (j : nat) :
  j <= length s -> startswith t (skipn j s) = true -> occurs_at t s j.
Proof.
  intros Hj H. apply startswith_inv in H as [r E].
  exists (firstn j s), r. split.
  - now rewrite <- E, firstn_skipn.
  - apply firstn_length_le, Hj.
Qed.

(** A region whose inner text, past its first character, is free of the
    first character of the closing marker, is matched whole. *)
Lemma match_here_region_exact (o : str) (c0 : ascii) (c' : str) (d : bool)
  (a : ascii) (w post : str) :
  cmatch (Dot d) a = true -> forallb (cmatch (Dot d)) w = true -> ~ In c0 w ->
  match_here (delimited_re o (c0 :: c') d) (o ++ (a :: w) ++ (c0 :: c') ++ post)
  = Some post.
Proof.
  intros Ca Hw Hfree. unfold delimited_re. cbn [match_here].
  rewrite strip_prefix_app.
  change ((a :: w) ++ (c0 :: c') ++ post) with (a :: w ++ (c0 :: c') ++ post).
  cbv beta iota. rewrite Ca.
  apply star_lazy_exact; [assumption| |].
  - now rewrite (strip_prefix_app (c0 :: c') post).
  - intros w1 [|b w2] -> Hne; [congruence|].
    change ((b :: w2) ++ (c0 :: c') ++ post) with (b :: w2 ++ (c0 :: c') ++ post).
    rewrite strip_prefix_head; [reflexivity|].
    intros ->. apply Hfree. apply in_or_app. right. now left.
Qed.

Lemma search_region_exact (pre o : str) (c0 : ascii) (c' : str) (d : bool)
  (a : ascii) (w post : str) :
  find o (pre ++ o ++ (a :: w) ++ (c0 :: c') ++ post) = Some (length pre) ->
  cmatch (Dot d) a = true -> forallb (cmatch (Dot d)) w = true -> ~ In c0 w ->
  search_group (delimited_re o (c0 :: c') d) (pre ++ o ++ (a :: w) ++ (c0 :: c') ++ post)
  = Some (o ++ (a :: w) ++ (c0 :: c')).
Proof.
  intros F Ca Hw Hfree. unfold search_group.
  pose proof (match_here_region_exact o c0 c' d a w post Ca Hw Hfree) as M.
  assert (E : pre ++ o ++ (a :: w) ++ (c0 :: c') ++ post
              = pre ++ (o ++ (a :: w) ++ (c0 :: c')) ++ post).
  { f_equal. now rewrite <- !app_assoc. }
  rewrite E in *. rewrite (search_first _ pre _ post); [reflexivity| |].
  - now rewrite <- !app_assoc.
  - intros j Hj. apply find_Some in F as [_ Hmin].
    unfold delimited_re. cbn [match_here].
    destruct (strip_prefix o _) eqn:S; [|reflexivity].
    exfalso. apply (Hmin j Hj). apply occurs_at_skipn.
    + rewrite length_app. lia.
    + destruct (startswith o _) eqn:B; [reflexivity|].
      apply strip_prefix_None in B. congruence.
Qed.

Lemma no_start_clean (old T : str) (c0 : ascii) :
  hd_error old = Some c0 -> ~ In c0 T -> no_start old T = true.
Proof.
  destruct old as [|c old]; intros [= <-] H. now apply clean_no_start.
Qed.

Lemma replace_clean (old new T : str) (c0 : ascii) :
  hd_error old = Some c0 -> ~ In c0 T -> replace old new T = T.
Proof.
  intros Hh HT. assert (Hold : old <> []) by (intros ->; discriminate Hh).
  rewrite <- (app_nil_r T) at 1.
  rewrite replace_skip by eauto using no_start_clean.
  rewrite replace_none; [apply app_nil_r|assumption|].
  destruct old; [congruence|reflexivity].
Qed.

Lemma sub_clean (t : str) (p : pattern) (repl T : str) (c0 : ascii) :
  hd_error t = Some c0 -> ~ In c0 T -> sub (Lit t :: p) repl T = T.
Proof.
  intros Hh HT. assert (Ht : t <> []) by (intros ->; discriminate Hh).
  rewrite sub_step by assumption. rewrite <- (app_nil_r T) at 1.
  rewrite search_skip by eauto using no_start_clean.
  cbn [search match_here]. destruct t; [congruence|reflexivity].
Qed.

(** The title of a level-1 heading without tags is the text of the
    heading. *)
Lemma title_of_h1 (T : str) :
  ~ In "<"%char T -> title_of_match (lit "<h1>" ++ T ++ lit "</h1>") = T.
Proof.
  intros HT. unfold title_of_match.
  assert (Hs : forall old, hd_error old = Some "<"%char -> no_start old T = true)
    by eauto using no_start_clean.
  rewrite replace_head by discriminate. cbn [app].
  rewrite (replace_skip (lit "<h1>") [] T (lit "</h1>")); [|discriminate|now apply Hs].
  rewrite (replace_none (lit "<h1>") [] (lit "</h1>")); [|discriminate|reflexivity].
  rewrite (replace_skip (lit "</h1>") [] T (lit "</h1>")); [|discriminate|now apply Hs].
  change (replace (lit "</h1>") [] (lit "</h1>")) with (@nil ascii).
  rewrite app_nil_r.
  rewrite (replace_clean H2_TITLE_OPEN [] T "<"%char eq_refl HT).
  unfold A_HREF_RE.
  rewrite (sub_clean (lit "<a href=" ++ dq) _ [] T "<"%char eq_refl HT).
  apply (replace_clean (lit "</a>") [] T "<"%char eq_refl HT).
Qed.

(** The title of a title block whose address and text hold no tag is the
    text of the link. *)
Lemma title_of_block (U T : str) :
  U <> [] -> one_line U -> ~ In "<"%char U -> ~ In (ascii_of_nat 34) U ->
  ~ In "<"%char T ->
  title_of_match (H2_TITLE_OPEN ++ A_OPEN ++ U ++ A_CLOSE ++ T ++ lit "</a>") = T.
Proof.
  intros HU Hline HUlt HUq HT. unfold title_of_match.
  assert (Hs : forall old, hd_error old = Some "<"%char ->
                           no_start old U = true /\ no_start old T = true)
    by (split; eauto using no_start_clean).
  assert (Hrest : forall old,
             hd_error old = Some "<"%char ->
             no_start old A_OPEN = true -> no_start old A_CLOSE = true ->
             find old (lit "</a>") = None ->
             replace old [] (A_OPEN ++ U ++ A_CLOSE ++ T ++ lit "</a>")
             = A_OPEN ++ U ++ A_CLOSE ++ T ++ lit "</a>").
  { intros old Hh H1 H2 F. destruct (Hs old Hh) as [HsU HsT].
    assert (Hold : old <> []) by (intros ->; discriminate Hh).
    rewrite !replace_skip by assumption. now rewrite replace_none. }
  assert (Hall : forall old,
             hd_error old = Some "<"%char -> no_start old H2_TITLE_OPEN = true ->
             no_start old A_OPEN = true -> no_start old A_CLOSE = true ->
             find old (lit "</a>") = None ->
             replace old [] (H2_TITLE_OPEN ++ A_OPEN ++ U ++ A_CLOSE ++ T ++ lit "</a>")
             = H2_TITLE_OPEN ++ A_OPEN ++ U ++ A_CLOSE ++ T ++ lit "</a>").
  { intros old Hh H0 H1 H2 F.
    assert (Hold : old <> []) by (intros ->; discriminate Hh).
    rewrite replace_skip by assumption. now rewrite Hrest. }
  rewrite (Hall (lit "<h1>")) by reflexivity.
  rewrite (Hall (lit "</h1>")) by reflexivity.
  rewrite replace_head by discriminate. cbn [app].
  rewrite (Hrest H2_TITLE_OPEN) by reflexivity.
  assert (S : sub A_HREF_RE [] (A_OPEN ++ U ++ A_CLOSE ++ T ++ lit "</a>")
              = T ++ lit "</a>").
  { change A_HREF_RE with (delimited_re A_OPEN A_CLOSE false).
    unfold delimited_re. rewrite sub_step by discriminate.
    fold (delimited_re A_OPEN A_CLOSE false).
    destruct U as [|a w]; [congruence|].
    assert (Hdot : forallb (cmatch (Dot false)) (a :: w) = true)
      by now apply Delimited.dot_one_line.
    cbn [forallb] in Hdot. apply andb_true_iff in Hdot as [Ca Hw].
    assert (M : match_here (delimited_re A_OPEN A_CLOSE false)
                  (A_OPEN ++ (a :: w) ++ A_CLOSE ++ T ++ lit "</a>")
                = Some (T ++ lit "</a>")).
    { apply (match_here_region_exact A_OPEN (ascii_of_nat 34) (lit ">") false
               a w (T ++ lit "</a>") Ca Hw).
      intros Hin. apply HUq. now right. }
    rewrite (search_here _ _ _ M).
    replace (matched (A_OPEN ++ (a :: w) ++ A_CLOSE ++ T ++ lit "</a>")
                     (T ++ lit "</a>"))
      with (A_OPEN ++ (a :: w) ++ A_CLOSE).
    2:{ rewrite <- (matched_app (A_OPEN ++ (a :: w) ++ A_CLOSE) (T ++ lit "</a>")).
        f_equal. now rewrite <- !app_assoc. }
    replace (A_OPEN ++ (a :: w) ++ A_CLOSE ++ T ++ lit "</a>")
      with ((A_OPEN ++ (a :: w) ++ A_CLOSE) ++ T ++ lit "</a>")
      by now rewrite <- !app_assoc.
    cbn [firstn Nat.add app].
    rewrite skipn_app, skipn_all, Nat.sub_diag. cbn [skipn app].
    unfold delimited_re. rewrite sub_step by discriminate.
    rewrite search_skip by (destruct (Hs A_OPEN eq_refl); assumption).
    reflexivity. }
  rewrite S.
  rewrite (replace_skip (lit "</a>") [] T (lit "</a>"));
    [|discriminate|now apply (Hs (lit "</a>"))].
  change (replace (lit "</a>") [] (lit "</a>")) with (@nil ascii).
  apply app_nil_r.
Qed.

End Title.

Lemma one_line_app (x y : str) : one_line (x ++ y) <-> one_line x /\ one_line y.
Proof.
  unfold one_line. rewrite in_app_iff. tauto.
Qed.

Lemma find_title_match_h1 (pre T post : str) :
  PyStr.find (lit "<h1>") (pre ++ lit "<h1>" ++ T ++ lit "</h1>" ++ post)
  = Some (length pre) ->
  T <> [] -> one_line T -> ~ In "<"%char T ->
  find_title_match (pre ++ lit "<h1>" ++ T ++ lit "</h1>" ++ post)
  = Some (lit "<h1>" ++ T ++ lit "</h1>").
Proof.
  intros F Hne Hline HT. destruct T as [|a w]; [congruence|].
  apply Delimited.dot_one_line in Hline. cbn [forallb] in Hline.
  apply andb_true_iff in Hline as [Ca Hw].
  unfold find_title_match.
  change H1_RE with (delimited_re (lit "<h1>") ("<"%char :: lit "/h1>") false).
  change (lit "</h1>") with ("<"%char :: lit "/h1>") in *.
  rewrite (Title.search_region_exact pre (lit "<h1>") "<"%char (lit "/h1>") false
             a w post F Ca Hw); [reflexivity|].
  intros Hin. apply HT. now right.
Qed.

Lemma find_title_match_block (pre U T post : str) :
  let html := pre ++ H2_TITLE_OPEN ++ A_OPEN ++ U ++ A_CLOSE ++ T ++ lit "</a>" ++ post in
  ~ has_h1 html ->
  PyStr.find H2_TITLE_OPEN html = Some (length pre) ->
  one_line U -> ~ In "<"%char U -> one_line T -> ~ In "<"%char T ->
  find_title_match html
  = Some (H2_TITLE_OPEN ++ A_OPEN ++ U ++ A_CLOSE ++ T ++ lit "</a>").
Proof.
  intros html Hno F HlU HU HlT HT. unfold find_title_match.
  apply Delimited.search_delimited_none in Hno.
  change (delimited_re (lit "<h1>") (lit "</h1>") false) with H1_RE in Hno.
  rewrite Hno.
  assert (E : html = pre ++ H2_TITLE_OPEN ++ ("<"%char :: tl A_OPEN ++ U ++ A_CLOSE ++ T)
                      ++ ("<"%char :: lit "/a>") ++ post).
  { unfold html. do 2 f_equal.
    change A_OPEN with ("<"%char :: tl A_OPEN).
    change (lit "</a>") with ("<"%char :: lit "/a>"). reassoc. }
  rewrite E in F |- *.
  change H2_TITLE_RE with (delimited_re H2_TITLE_OPEN ("<"%char :: lit "/a>") false).
  rewrite (Title.search_region_exact pre H2_TITLE_OPEN "<"%char (lit "/a>") false
             "<"%char (tl A_OPEN ++ U ++ A_CLOSE ++ T) post F eq_refl).
  - f_equal. f_equal.
    change A_OPEN with ("<"%char :: tl A_OPEN).
    change (lit "</a>") with ("<"%char :: lit "/a>"). reassoc.
  - apply Delimited.dot_one_line. repeat (apply one_line_app; split);
      try assumption; unfold one_line; simpl; intuition discriminate.
  - rewrite !in_app_iff. intros [H|[H|[H|H]]]; try tauto;
      simpl in H; intuition discriminate.
Qed.

(** ** What [generate_post] stores as the title *)

Section TitleOfPost.

Variable find_article_index : Article -> list Article -> option nat.
Variable human_readable_pub_date : Article -> str.
Variable read_complete_file : str -> str.
Variable configuration : Configuration.
Variable today_strftime : string -> str.
Variable format : str -> list (string * str) -> str + string.

(** C6, as the code has it: for an article with a heading, [generate_post]
    stores as the title the text of the heading found, after deleting from
    it [<h1>], [</h1>], the opening tag of the title block, every
    [<a href="...">] with an address of at least one character on one line,
    and [</a>], in this order; other tags stay.  So the title of the first
    level-1 heading [<h1>T</h1>], and without one the title of the first
    title block [<h2 class="article_title"><a href="U">T</a>], is [T] when
    [T] and [U] hold no tag. *)
Theorem generate_post_title (article : Article) (template_path : str)
  (listing : list Article) :
  let outcome :=
    generate_post find_article_index human_readable_pub_date read_complete_file
      configuration today_strftime format article template_path listing in
  (forall m, find_title_match (html article) = Some m ->
             title (post_article outcome) = Some (title_of_match m))
  /\ (forall pre T post,
         html article = pre ++ lit "<h1>" ++ T ++ lit "</h1>" ++ post ->
         PyStr.find (lit "<h1>") (html article) = Some (length pre) ->
         T <> [] -> one_line T -> ~ In "<"%char T ->
         title (post_article outcome) = Some T)
  /\ (forall pre U T post,
         html article
         = pre ++ H2_TITLE_OPEN ++ A_OPEN ++ U ++ A_CLOSE ++ T ++ lit "</a>" ++ post ->
         ~ has_h1 (html article) ->
         PyStr.find H2_TITLE_OPEN (html article) = Some (length pre) ->
         U <> [] -> one_line U -> ~ In "<"%char U -> ~ In (ascii_of_nat 34) U ->
         one_line T -> ~ In "<"%char T ->
         title (post_article outcome) = Some T).
Proof.
  cbv zeta.
  assert (Hstore : forall m, find_title_match (html article) = Some m ->
    title (post_article
      (generate_post find_article_index human_readable_pub_date read_complete_file
         configuration today_strftime format article template_path listing))
    = Some (title_of_match m)).
  { intros m E. unfold generate_post. now rewrite E. }
  split; [exact Hstore|]. split.
  - intros pre T post E F Hne Hline HT. rewrite E in F.
    pose proof (find_title_match_h1 pre T post F Hne Hline HT) as M.
    rewrite <- E in M. rewrite (Hstore _ M). f_equal. now apply Title.title_of_h1.
  - intros pre U T post E Hno F HU HlU HUlt HUq HlT HT. rewrite E in F, Hno.
    pose proof (find_title_match_block pre U T post Hno F HlU HUlt HlT HT) as M.
    cbv zeta in M. rewrite <- E in M. rewrite (Hstore _ M). f_equal.
    now apply Title.title_of_block.
Qed.

End TitleOfPost.

(** C6, as the claim has it: the title taken from [<h1><em>Hi</em></h1>]
    keeps the tags of the emphasis. *)
Lemma title_keeps_other_tags :
  title (post_article
           (generate_post Site.find_article_index Site.human_readable_pub_date
              Site.read_complete_file Site.configuration Site.today_strftime
              Site.format (Site.post "e" "<h1><em>Hi</em></h1>")
              (lit "template.html") [Site.A]))
  = Some (lit "<em>Hi</em>")
  /\ lit "<em>Hi</em>" <> lit "Hi".
Proof.
  split; [reflexivity|discriminate].
Qed.

(** The first post of the site. *)
Lemma generate_post_title_witness :
  title (post_article
           (generate_post Site.find_article_index Site.human_readable_pub_date
              Site.read_complete_file Site.configuration Site.today_strftime
              Site.format Site.A (lit "template.html") [Site.A; Site.B]))
  = Some (lit "First").
Proof.
  refine (proj1 (proj2 (generate_post_title Site.find_article_index
            Site.human_readable_pub_date Site.read_complete_file Site.configuration
            Site.today_strftime Site.format Site.A (lit "template.html")
            [Site.A; Site.B]))
          [] (lit "First") (lit "<p>Intro A.</p><p>More A.</p>") _ _ _ _ _).
  - reflexivity.
  - reflexivity.
  - discriminate.
  - unfold one_line. simpl. intuition discriminate.
  - simpl. intuition discriminate.
Defined.

(** ** The fragments of the intro text *)

Lemma collect_intro_full (ps acc : list str) :
  length acc = 3 -> collect_intro ps acc = Ok acc.
Proof.
  intros H. destruct ps as [|p ps]; [reflexivity|].
  cbn [collect_intro]. now rewrite H.
Qed.

Lemma collect_intro_step (p : str) (ps acc : list str) :
  length acc <= 2 -> ~ blank p ->
  collect_intro (p :: ps) acc
  = collect_intro ps (if text_leading p then acc ++ [p] else acc).
Proof.
  intros Hacc Hp. cbn [collect_intro].
  replace (2 <? length acc) with false by (symmetry; apply Nat.ltb_ge; lia).
  unfold blank in Hp. unfold text_leading.
  destruct (PyStr.strip p) as [|c s]; [congruence|].
  cbn [PyStr.head bind]. now destruct (Ascii.eqb c "<"%char).
Qed.

Lemma collect_intro_blank (b : str) (post acc : list str) :
  length acc <= 2 -> blank b -> collect_intro (b :: post) acc = Raise IndexError.
Proof.
  intros Hacc Hb. cbn [collect_intro].
  replace (2 <? length acc) with false by (symmetry; apply Nat.ltb_ge; lia).
  unfold blank in Hb. now rewrite Hb.
Qed.

(** Scanning fragments none of which is blank, as long as the list has room
    for what is collected. *)
Lemma collect_intro_app (pre post acc : list str) :
  Forall (fun p => ~ blank p) pre ->
  length acc + length (filter text_leading pre) <= 3 ->
  collect_intro (pre ++ post) acc
  = collect_intro post (acc ++ filter text_leading pre).
Proof.
  intros Hpre. revert acc. induction Hpre as [|p pre Hp Hpre IH]; intros acc Hlen.
  - simpl. now rewrite app_nil_r.
  - destruct (Nat.le_gt_cases (length acc) 2) as [L|L].
    + change ((p :: pre) ++ post) with (p :: pre ++ post).
      rewrite collect_intro_step by assumption.
      cbn [filter] in Hlen |- *. destruct (text_leading p).
      * rewrite IH.
        -- now rewrite <- app_assoc.
        -- rewrite length_app. simpl in *. lia.
      * now apply IH.
    + assert (Hfull : length acc = 3) by lia.
      assert (Hnil : filter text_leading (p :: pre) = []).
      { destruct (filter text_leading (p :: pre)); [reflexivity|simpl in Hlen; lia]. }
      rewrite Hnil, app_nil_r. now rewrite !collect_intro_full.
Qed.

(** X1: the loop of [extract_article_preview] collects, after the empty
    string it starts from, the first two fragments whose stripped text does
    not start with [<]: it goes through fragments that are not blank until
    it has two, and does not look at what follows them. *)
Theorem collect_intro_first_two (pre post : list str) :
  Forall (fun p => ~ blank p) pre ->
  length (filter text_leading pre) <= 2 ->
  post = [] \/ length (filter text_leading pre) = 2 ->
  collect_intro (pre ++ post) [[]] = Ok ([] :: filter text_leading pre).
Proof.
  intros Hpre Hlen Hstop.
  rewrite collect_intro_app by (cbn [length]; assumption || lia).
  destruct Hstop as [->|H2]; [reflexivity|].
  apply collect_intro_full. cbn [length app]. now rewrite H2.
Qed.

Lemma text_leading_witness_fragments :
  Forall (fun p => ~ blank p)
    [lit "<h1>T</h1>"; lit "One.</p>"; lit "<img>"; lit "Two.</p>"].
Proof.
  repeat constructor; unfold blank; discriminate.
Qed.

(** A heading, two paragraphs with an image between them, and a blank
    fragment after them. *)
Lemma collect_intro_first_two_witness :
  collect_intro
    ([lit "<h1>T</h1>"; lit "One.</p>"; lit "<img>"; lit "Two.</p>"]
     ++ [lit " "; lit "Three.</p>"]) [[]]
  = Ok [[]; lit "One.</p>"; lit "Two.</p>"].
Proof.
  apply (collect_intro_first_two _ [lit " "; lit "Three.</p>"]
           text_leading_witness_fragments).
  - simpl. lia.
  - right. reflexivity.
Defined.

(** X2: a blank fragment met before two fragments are collected makes the
    loop raise [IndexError], and with it [extract_article_preview]. *)
Theorem collect_intro_blank_fragment (pre : list str) (b : str) (post : list str) :
  Forall (fun p => ~ blank p) pre ->
  length (filter text_leading pre) < 2 ->
  blank b ->
  collect_intro (pre ++ b :: post) [[]] = Raise IndexError
  /\ forall article article_text,
       PyStr.split P_OPEN article_text = pre ++ b :: post ->
       extract_preview_from article article_text = Raise IndexError.
Proof.
  intros Hpre Hlen Hb.
  assert (E : collect_intro (pre ++ b :: post) [[]] = Raise IndexError).
  { rewrite collect_intro_app by (cbn [length]; assumption || lia).
    apply collect_intro_blank; [exact Hlen|assumption]. }
  split; [exact E|].
  intros article article_text Hs. unfold extract_preview_from.
  now rewrite Hs, E.
Qed.

(** A page whose second paragraph is empty. *)
Lemma collect_intro_blank_fragment_witness :
  extract_preview_from Site.A (lit "<h1>T</h1><p>One.</p><p><p>Two.</p>")
  = Raise IndexError.
Proof.
  refine (proj2 (collect_intro_blank_fragment
                   [lit "<h1>T</h1>"; lit "One.</p>"] [] [lit "Two.</p>"] _ _ _)
            Site.A _ _).
  - repeat constructor; unfold blank; discriminate.
  - simpl. lia.
  - reflexivity.
  - reflexivity.
Defined.

(** ** The photograph and the intro text of a preview *)

Lemma extract_preview_photo (article : Article) (article_text : str)
  (p : ArticlePreview) :
  extract_preview_from article article_text = Ok p ->
  first_photo p = Re.search_group FIGURE_RE article_text.
Proof.
  unfold extract_preview_from. intros H.
  destruct (collect_intro _ _); cbn [bind] in H; [|discriminate H].
  destruct (strip_closing_tag _); cbn [bind] in H; [|discriminate H].
  now injection H as <-.
Qed.

(** X3: the photograph of a preview is absent exactly when the text holds
    no [<figure>], at least one character (a newline counts), [</figure>];
    otherwise it is, verbatim, the first region of that form, the shortest
    that starts there. *)
Theorem first_photo_first_figure (article : Article) (article_text : str)
  (p : ArticlePreview) :
  extract_preview_from article article_text = Ok p ->
  (first_photo p = None <->
   ~ delimited (lit "<figure>") (lit "</figure>") true article_text)
  /\ forall photo,
       first_photo p = Some photo ->
       exists pre inner post,
         article_text = pre ++ lit "<figure>" ++ inner ++ lit "</figure>" ++ post
         /\ photo = lit "<figure>" ++ inner ++ lit "</figure>"
         /\ inner <> []
         /\ (forall pre' inner' post',
                article_text
                = pre' ++ lit "<figure>" ++ inner' ++ lit "</figure>" ++ post' ->
                inner' <> [] -> length pre <= length pre')
         /\ (forall inner' post',
                inner' <> [] ->
                inner ++ lit "</figure>" ++ post = inner' ++ lit "</figure>" ++ post' ->
                length inner <= length inner').
Proof.
  intros H. rewrite (extract_preview_photo _ _ _ H).
  change FIGURE_RE with (delimited_re (lit "<figure>") (lit "</figure>") true).
  split; [apply Delimited.search_delimited_none|].
  intros photo E. unfold Re.search_group in E.
  destruct (Re.search _ article_text) as [[k m]|] eqn:S; [|discriminate E].
  injection E as ->.
  destruct (FirstRegion.search_delimited_first _ _ _ _ _ _ S)
    as (pre & inner & post & Es & _ & -> & Hne & _ & Hfirst & Hshort).
  exists pre, inner, post. repeat split; try assumption.
  intros pre' inner' post' Es' Hne'. apply (Hfirst pre' inner' post' Es' Hne').
  discriminate.
Qed.

(** A page with two figures. *)
Lemma first_photo_first_figure_witness :
  exists p,
    extract_preview_from Site.A
      (lit "<h1>T</h1><p>One.</p><figure>a</figure><figure>b</figure>") = Ok p
    /\ first_photo p <> None.
Proof.
  eexists. split; [reflexivity|].
  intros E.
  apply (proj1 (proj1 (first_photo_first_figure Site.A
           (lit "<h1>T</h1><p>One.</p><figure>a</figure><figure>b</figure>") _
           eq_refl))) in E.
  apply E. exists (lit "<h1>T</h1><p>One.</p>"), (lit "a"), (lit "<figure>b</figure>").
  repeat split; discriminate.
Defined.

(** What [strip_closing_tag] returns is followed by [</p>] in its
    argument. *)
Lemma strip_closing_tag_inv (s r : str) :
  strip_closing_tag s = Ok r -> exists b, s = r ++ P_CLOSE ++ b.
Proof.
  unfold strip_closing_tag, PyStr.index, PyStr.reversed. intros H.
  change (lit ">p/<") with (rev P_CLOSE) in H.
  destruct (PyStr.find (rev P_CLOSE) (rev s)) as [idx|] eqn:F; [|discriminate H].
  cbn [bind] in H. injection H as <-.
  apply PyStrFacts.find_Some in F as [Ho _].
  pose proof (PyStrFacts.occurs_at_bound _ _ _ Ho) as Hb.
  rewrite !length_rev in Hb.
  apply PyStrFacts.occurs_at_rev in Ho. destruct Ho as (a & b & E & Ha).
  change (length P_CLOSE) with 4 in *.
  assert (R : PyStr.slice_to_neg s (idx + 4) = a).
  { replace (idx + 4) with (S (idx + 3)) by lia. cbn [PyStr.slice_to_neg].
    replace (length s - S (idx + 3)) with (length a) by lia.
    rewrite E. apply firstn_prefix. }
  exists b. now rewrite R.
Qed.

Lemma collect_intro_extends (ps acc l : list str) :
  collect_intro ps acc = Ok l -> exists extra, l = acc ++ extra.
Proof.
  revert acc; induction ps as [|p ps IH]; intros acc H; cbn [collect_intro] in H.
  - injection H as <-. exists []. now rewrite app_nil_r.
  - destruct (2 <? length acc).
    + injection H as <-. exists []. now rewrite app_nil_r.
    + destruct (PyStr.head (PyStr.strip p)) as [c|e]; cbn [bind] in H;
        [|discriminate H].
      destruct (Ascii.eqb c "<"%char).
      * now apply IH.
      * apply IH in H as [extra ->]. exists (p :: extra).
        now rewrite <- app_assoc.
Qed.

(** X4: the intro text of a preview that is returned starts with [<p>], and
    in the joined fragments it is followed by [</p>]: a preview is only
    returned when a fragment was collected. *)
Theorem intro_text_opens_paragraph (article : Article) (article_text : str)
  (p : ArticlePreview) :
  extract_preview_from article article_text = Ok p ->
  exists first rest body tail,
    collect_intro (PyStr.split P_OPEN article_text) [[]] = Ok ([] :: first :: rest)
    /\ intro_text p = P_OPEN ++ body
    /\ PyStr.join P_OPEN ([] :: first :: rest) = intro_text p ++ P_CLOSE ++ tail.
Proof.
  unfold extract_preview_from. intros H.
  destruct (collect_intro _ _) as [l|] eqn:C; cbn [bind] in H; [|discriminate H].
  destruct (strip_closing_tag _) as [r|] eqn:S; cbn [bind] in H; [|discriminate H].
  injection H as <-. cbn [intro_text].
  apply collect_intro_extends in C as [extra ->].
  apply strip_closing_tag_inv in S as [tail E].
  destruct extra as [|first rest].
  - destruct r; discriminate E.
  - exists first, rest.
    change (PyStr.join P_OPEN ([[]] ++ first :: rest))
      with (P_OPEN ++ PyStr.join P_OPEN (first :: rest)) in E.
    destruct r as [|c0 [|c1 [|c2 body]]]; try discriminate E.
    exists body, tail. split; [reflexivity|]. split; [|exact E].
    injection E as <- <- <-. reflexivity.
Qed.

(** The first page of the site. *)
Lemma intro_text_opens_paragraph_witness :
  exists p body,
    extract_preview_from Site.A (Site.read_complete_file (target Site.A)) = Ok p
    /\ intro_text p = P_OPEN ++ body.
Proof.
  eexists.
  destruct (intro_text_opens_paragraph Site.A
              (Site.read_complete_file (target Site.A)) _ eq_refl)
    as (first & rest & body & tail & _ & E & _).
  exists body. split; [reflexivity|exact E].
Defined.

(** ** A preview that cannot be extracted *)

Section LandingErrors.

Variable human_readable_pub_date : Article -> str.
Variable html_path : Article -> str.
Variable read_complete_file : str -> str.
Variable configuration : Configuration.
Variable today_strftime : string -> str.
Variable format : str -> list (string * str) -> str + string.

Lemma aggregate_previews_raise (ps : list ArticlePreview) (e : exn)
  (rest : list (result ArticlePreview)) (acc : str) :
  aggregate_previews human_readable_pub_date (map Ok ps ++ Raise e :: rest) acc
  = Raise e.
Proof.
  revert acc; induction ps as [|p ps IH]; intros acc;
    cbn [aggregate_previews map bind app]; [reflexivity|apply IH].
Qed.

(** X5: when the preview of an entry cannot be extracted, and those of
    the entries after it in the listing can, [generate_landing_page] raises
    what that extraction raised; no page is made from the other entries. *)
Theorem landing_page_first_error (template_path : str)
  (before : list Article) (bad : Article) (after : list Article)
  (ps : list ArticlePreview) (e : exn) :
  map (extract_article_preview html_path read_complete_file) (rev after) = map Ok ps ->
  extract_article_preview html_path read_complete_file bad = Raise e ->
  landing_result
    (generate_landing_page human_readable_pub_date html_path read_complete_file
       configuration today_strftime format template_path (before ++ bad :: after))
  = Raise e.
Proof.
  intros Hafter Hbad. unfold generate_landing_page, create_article_previews.
  cbn [previews landing_result].
  rewrite rev_app_distr. cbn [rev]. rewrite <- app_assoc. cbn [app].
  rewrite map_app. cbn [map]. rewrite Hafter, Hbad.
  now rewrite aggregate_previews_raise.
Qed.

End LandingErrors.

(** A listing whose second entry has a page that starts with a paragraph. *)
Lemma landing_page_first_error_witness :
  landing_result
    (generate_landing_page Site.human_readable_pub_date Site.html_path
       (fun path => if Path.str_eqb path (target Site.B)
                    then lit "<p>Intro B.</p>"
                    else Site.read_complete_file path)
       Site.configuration Site.today_strftime Site.format (lit "template.html")
       ([Site.A] ++ Site.B :: [Site.C]))
  = Raise IndexError.
Proof.
  eapply landing_page_first_error with (ps := [_]); reflexivity.
Defined.

(** ** The page [generate_post] returns *)

(** The first line of a text that does not start with a line end starts
    with the first character of the text. *)
Lemma split_first_line (c : ascii) (s : str) :
  c <> Re.newline ->
  exists line0 lines, PyStr.split nl (c :: s) = (c :: line0) :: lines.
Proof.
  intros Hc. unfold PyStr.split. cbn [PyStr.split_from].
  destruct (PyStr.find nl (c :: s)) as [k|] eqn:F.
  - destruct k as [|k].
    + apply PyStrFacts.find_Some in F as [Ho _].
      apply PyStrFacts.occurs_at_0 in Ho. unfold nl in Ho.
      cbn [PyStr.startswith] in Ho.
      destruct (Ascii.eqb Re.newline c) eqn:E; [|discriminate Ho].
      apply Ascii.eqb_eq in E. congruence.
    + cbn [firstn]. eauto.
  - eauto.
Qed.

Section PostPage.

Variable find_article_index : Article -> list Article -> option nat.
Variable human_readable_pub_date : Article -> str.
Variable read_complete_file : str -> str.
Variable configuration : Configuration.
Variable today_strftime : string -> str.
Variable format : str -> list (string * str) -> str + string.

(** The title block is the first line of the content, so the removal of a
    blank first line never applies and the content is never cut. *)
Lemma post_content_whole (article : Article) (m t : str) :
  post_content human_readable_pub_date article m t
  = Ok (_ARTICLE_CONTENT_TEMPLATE
          (_ARTICLE_TITLE_TEMPLATE [] t (human_readable_pub_date article) ++ nl
           ++ post_body (html article) m)).
Proof.
  unfold post_content. fold (post_body (html article) m).
  set (content := _ARTICLE_TITLE_TEMPLATE [] t _ ++ nl ++ post_body _ _).
  assert (Hc : exists s, content = "<"%char :: s) by (eexists; reflexivity).
  destruct Hc as [s Hc]. rewrite Hc at 1.
  destruct (split_first_line "<"%char s ltac:(discriminate)) as (line0 & lines & ->).
  reflexivity.
Qed.

(** X6: for an article with a heading, and a lookup that reports an index
    inside the listing, [generate_post] raises nothing of its own: its
    result is that of applying the page template to the title, the
    navigation bar for the previous post, and the content section, which
    is the title block, a line end, and the whole body. *)
Theorem generate_post_page_fields (article : Article) (template_path : str)
  (listing : list Article) (m : str) :
  find_title_match (html article) = Some m ->
  let titled := set_title article (title_of_match m) in
  (forall i, find_article_index titled listing = Some i -> i < length listing) ->
  exists previous_article,
    previous_article_of find_article_index titled listing = Ok previous_article
    /\ post_result
         (generate_post find_article_index human_readable_pub_date
            read_complete_file configuration today_strftime format article
            template_path listing)
       = run_format format (read_complete_file template_path)
           (page_fields configuration today_strftime (title_of_match m)
              (nav_bar_of previous_article)
              (_ARTICLE_CONTENT_TEMPLATE
                 (_ARTICLE_TITLE_TEMPLATE [] (title_of_match m)
                    (human_readable_pub_date titled)
                  ++ nl ++ post_body (html article) m))
              (lit "../")).
Proof.
  intros E titled Hrange.
  assert (Hprev : exists previous_article,
             previous_article_of find_article_index titled listing
             = Ok previous_article).
  { unfold previous_article_of.
    destruct (find_article_index titled listing) as [i|] eqn:F.
    - specialize (Hrange _ eq_refl).
      destruct (0 <=? Z.of_nat i - 1)%Z eqn:Z0; [|eauto].
      apply Z.leb_le in Z0.
      destruct (nth_error listing (Z.to_nat (Z.of_nat i - 1))) eqn:N; [eauto|].
      apply nth_error_None in N. lia.
    - destruct listing; eauto. }
  destruct Hprev as [previous_article Hprev]. exists previous_article.
  split; [assumption|].
  unfold generate_post. rewrite E. cbn [post_result]. fold titled.
  rewrite post_content_whole. cbn [bind]. rewrite Hprev. reflexivity.
Qed.

End PostPage.

(** The second post of the site, in the listing [[A; B; C]]. *)
Lemma generate_post_page_fields_witness :
  exists page,
    post_result
      (generate_post Site.find_article_index Site.human_readable_pub_date
         Site.read_complete_file Site.configuration Site.today_strftime Site.format
         Site.B (lit "template.html") [Site.A; Site.B; Site.C])
    = Ok page.
Proof.
  destruct (generate_post_page_fields Site.find_article_index
              Site.human_readable_pub_date Site.read_complete_file
              Site.configuration Site.today_strftime Site.format
              Site.B (lit "template.html") [Site.A; Site.B; Site.C]
              (lit "<h1>Second</h1>") eq_refl (site_lookup_in_range _ _))
    as (prev & _ & E).
  rewrite E. eexists. reflexivity.
Defined.

(** ** The navigation bar and the link *)

Lemma to_str_not_empty (p : Path.t) : Path.to_str p <> [].
Proof.
  unfold Path.to_str. destruct (Path.root p ++ _); discriminate.
Qed.

(** X7: the navigation bar holds the link [Previous] exactly when there
    is a previous post: without one it is a space and the link [Home], with
    one it is the two links, the first to the path of the previous post,
    which is never the empty string. *)
Theorem nav_bar_previous_link (previous_article : PrevLink) :
  (occurs (lit "Previous") (nav_bar_of previous_article) <-> previous_article <> NoPrev)
  /\ nav_bar_of NoPrev = lit " <a href=" ++ q "../" ++ lit ">Home</a>"
  /\ forall p, nav_bar_of (PrevPath p) = _NAV_BAR_TEMPLATE (Path.to_str p)
               /\ Path.to_str p <> [].
Proof.
  split; [|split].
  - destruct previous_article as [|p].
    + split; [|congruence]. intros H. apply PyStrFacts.find_occurs in H.
      now elim H.
    + split; [discriminate|]. intros _. cbn [nav_bar_of prev_is_empty prev_str].
      unfold _NAV_BAR_TEMPLATE.
      exists (length (lit "<a href=" ++ dq ++ Path.to_str p ++ dq ++ lit ">")),
        (lit "<a href=" ++ dq ++ Path.to_str p ++ dq ++ lit ">"),
        (lit "</a> <a href=" ++ q "../" ++ lit ">Home</a>").
      split; [|reflexivity]. rewrite <- !app_assoc. reflexivity.
  - reflexivity.
  - intros p. split; [reflexivity|apply to_str_not_empty].
Qed.

Lemma lstrip_sep_unrooted (t : str) : rooted t = false -> Path.lstrip_sep t = t.
Proof.
  destruct t as [|c t]; [reflexivity|]. simpl. now intros ->.
Qed.

Lemma parse_unrooted (t : str) :
  rooted t = false -> Path.parse t = Path.mk [] (Path.components t).
Proof.
  intros H. unfold Path.parse, Path.splitroot.
  now rewrite (lstrip_sep_unrooted _ H), Nat.sub_diag.
Qed.

Lemma lstrip_sep_length (t : str) : length (Path.lstrip_sep t) <= length t.
Proof.
  induction t as [|c t IH]; simpl; [lia|].
  destruct (Ascii.eqb c Path.slash); simpl; lia.
Qed.

(** X8: the link to the previous post stays under the parent directory
    only for a target that does not start with a slash: its text is then
    [..] alone or [../] and the components of the target; a target that
    starts with a slash replaces the prefix, and the link is the target's
    own path. *)
Theorem previous_link_path (p : Article) :
  (rooted (target p) = false ->
   prev_str (link_to p)
   = match Path.components (target p) with
     | [] => lit ".."
     | c :: cs => lit "../" ++ PyStr.join [Path.slash] (c :: cs)
     end)
  /\ (rooted (target p) = true ->
      link_to p = PrevPath (Path.parse (target p))
      /\ exists rest, prev_str (link_to p) = Path.slash :: rest).
Proof.
  unfold link_to, prev_str, Path.truediv. split.
  - intros H. rewrite (parse_unrooted _ H). cbn [Path.root Path.parts].
    change (Path.parts (Path.parse (lit "../"))) with [lit ".."].
    change (Path.root (Path.parse (lit "../"))) with (@nil ascii).
    unfold Path.to_str. cbn [Path.root Path.parts app].
    destruct (Path.components (target p)) as [|c cs]; reflexivity.
  - intros H. destruct (target p) as [|c t] eqn:T; [discriminate H|].
    simpl in H. apply Ascii.eqb_eq in H. subst c.
    assert (R : exists r, Path.root (Path.parse (Path.slash :: t)) = Path.slash :: r).
    { unfold Path.parse, Path.splitroot. cbn [Path.lstrip_sep].
      rewrite Ascii.eqb_refl.
      pose proof (lstrip_sep_length t) as L.
      destruct (length (Path.slash :: t) - length (Path.lstrip_sep t)) as [|[|[|n]]] eqn:D;
        cbn [Path.root]; try (eexists; reflexivity).
      cbn [length] in D. lia. }
    destruct R as [r R]. rewrite R. split; [reflexivity|].
    unfold Path.to_str. rewrite R. cbn [app]. eexists. reflexivity.
Qed.

(** The posts of the site have targets without a leading slash. *)
Lemma previous_link_path_witness :
  prev_str (link_to Site.A) = lit "../a.html".
Proof.
  exact (proj1 (previous_link_path Site.A) eq_refl).
Defined.

(** ** Which heading gives the title *)

Lemma star_lazy_none (c : Re.cclass) (k : str -> option str) (s : str) :
  (forall w1 w2, s = w1 ++ w2 -> k w2 = None) -> Re.star_lazy c k s = None.
Proof.
  induction s as [|a s IH]; intros H; simpl.
  - now rewrite (H [] [] eq_refl).
  - rewrite (H [] (a :: s) eq_refl). destruct (Re.cmatch c a); [|reflexivity].
    apply IH. intros w1 w2 ->. now apply (H (a :: w1) w2).
Qed.

(** A hyperlink with an empty address is not a match of the pattern
    [<a href=".+?">] when no double quote follows on. *)
Lemma search_empty_address (T : str) :
  ~ In "<"%char T -> ~ In (ascii_of_nat 34) T ->
  Re.search A_HREF_RE (A_OPEN ++ A_CLOSE ++ T ++ lit "</a>") = None.
Proof.
  intros HT Hq.
  assert (M0 : Re.match_here A_HREF_RE (A_OPEN ++ A_CLOSE ++ T ++ lit "</a>") = None).
  { unfold A_HREF_RE. cbn [Re.match_here]. fold A_OPEN.
    rewrite ReFacts.strip_prefix_app.
    change (A_CLOSE ++ T ++ lit "</a>")
      with (ascii_of_nat 34 :: ">"%char :: T ++ lit "</a>").
    cbv beta iota. change (Re.cmatch (Re.Dot false) (ascii_of_nat 34)) with true.
    cbv iota. apply star_lazy_none. intros w1 w2 E.
    destruct w2 as [|b w2]; [reflexivity|].
    change (dq ++ lit ">") with (ascii_of_nat 34 :: lit ">").
    rewrite ReFacts.strip_prefix_head; [reflexivity|].
    intros ->. assert (Hin : In (ascii_of_nat 34) (">"%char :: T ++ lit "</a>")).
    { rewrite E. apply in_or_app. right. now left. }
    destruct Hin as [Hin|Hin]; [discriminate Hin|].
    apply in_app_or in Hin as [Hin|Hin]; [now apply Hq|].
    simpl in Hin. intuition discriminate. }
  change (A_OPEN ++ A_CLOSE ++ T ++ lit "</a>")
    with ("<"%char :: (tl A_OPEN ++ A_CLOSE ++ T) ++ lit "</a>") in *.
  cbn [Re.search]. rewrite M0.
  unfold A_HREF_RE. fold A_OPEN.
  rewrite (Rewriting.search_skip A_OPEN _ (tl A_OPEN ++ A_CLOSE ++ T) (lit "</a>")).
  - reflexivity.
  - apply (Title.no_start_clean A_OPEN _ "<"%char eq_refl).
    rewrite !in_app_iff. intros [H|[H|H]]; [| |now apply HT];
      simpl in H; intuition discriminate.
Qed.

(** The title taken from a title block with an empty address keeps the
    opening tag of the hyperlink. *)
Lemma title_of_own_block (T : str) :
  ~ In "<"%char T -> ~ In (ascii_of_nat 34) T ->
  title_of_match (H2_TITLE_OPEN ++ A_OPEN ++ A_CLOSE ++ T ++ lit "</a>")
  = A_OPEN ++ A_CLOSE ++ T.
Proof.
  intros HT Hq. unfold title_of_match.
  assert (Hs : forall old, hd_error old = Some "<"%char -> no_start old T = true)
    by eauto using Title.no_start_clean.
  assert (Hrest : forall old,
             hd_error old = Some "<"%char ->
             no_start old A_OPEN = true -> no_start old A_CLOSE = true ->
             PyStr.find old (lit "</a>") = None ->
             PyStr.replace old [] (A_OPEN ++ A_CLOSE ++ T ++ lit "</a>")
             = A_OPEN ++ A_CLOSE ++ T ++ lit "</a>").
  { intros old Hh H1 H2 F.
    assert (Hold : old <> []) by (intros ->; discriminate Hh).
    rewrite !Rewriting.replace_skip by auto. now rewrite Rewriting.replace_none. }
  assert (Hall : forall old,
             hd_error old = Some "<"%char -> no_start old H2_TITLE_OPEN = true ->
             no_start old A_OPEN = true -> no_start old A_CLOSE = true ->
             PyStr.find old (lit "</a>") = None ->
             PyStr.replace old [] (H2_TITLE_OPEN ++ A_OPEN ++ A_CLOSE ++ T ++ lit "</a>")
             = H2_TITLE_OPEN ++ A_OPEN ++ A_CLOSE ++ T ++ lit "</a>").
  { intros old Hh H0 H1 H2 F.
    assert (Hold : old <> []) by (intros ->; discriminate Hh).
    rewrite Rewriting.replace_skip by assumption. now rewrite Hrest. }
  rewrite (Hall (lit "<h1>")) by reflexivity.
  rewrite (Hall (lit "</h1>")) by reflexivity.
  rewrite Rewriting.replace_head by discriminate. cbn [app].
  rewrite (Hrest H2_TITLE_OPEN) by reflexivity.
  unfold A_HREF_RE at 1. rewrite Rewriting.sub_step by discriminate.
  fold A_OPEN. change [Re.Lit A_OPEN; Re.PlusLazy (Re.Dot false); Re.Lit (dq ++ lit ">")]
    with A_HREF_RE.
  rewrite (search_empty_address T HT Hq).
  rewrite !Rewriting.replace_skip;
    try discriminate; try reflexivity; [|now apply Hs].
  change (PyStr.replace (lit "</a>") [] (lit "</a>")) with (@nil ascii).
  now rewrite app_nil_r.
Qed.

Section FirstHeading.

Variable find_article_index : Article -> list Article -> option nat.
Variable human_readable_pub_date : Article -> str.
Variable read_complete_file : str -> str.
Variable configuration : Configuration.
Variable today_strftime : string -> str.
Variable format : str -> list (string * str) -> str + string.

Lemma stored_title (article : Article) (template_path : str)
  (listing : list Article) (m : str) :
  find_title_match (html article) = Some m ->
  title (post_article
           (generate_post find_article_index human_readable_pub_date
              read_complete_file configuration today_strftime format article
              template_path listing))
  = Some (title_of_match m).
Proof.
  intros E. unfold generate_post. now rewrite E.
Qed.

(** X9: the title comes from the first level-1 heading of the article,
    the shortest that starts there, even when a title block stands before
    it; only an article without a level-1 heading takes it from its first
    title block. *)
Theorem title_from_first_heading (article : Article) (template_path : str)
  (listing : list Article) :
  let stored :=
    title (post_article
             (generate_post find_article_index human_readable_pub_date
                read_complete_file configuration today_strftime format article
                template_path listing)) in
  let first_region opening closing :=
    exists pre inner post,
      html article = pre ++ opening ++ inner ++ closing ++ post
      /\ inner <> [] /\ one_line inner
      /\ (forall pre' inner' post',
             html article = pre' ++ opening ++ inner' ++ closing ++ post' ->
             inner' <> [] -> one_line inner' -> length pre <= length pre')
      /\ (forall inner' post',
             inner' <> [] ->
             inner ++ closing ++ post = inner' ++ closing ++ post' ->
             length inner <= length inner')
      /\ stored = Some (title_of_match (opening ++ inner ++ closing)) in
  (has_h1 (html article) -> first_region (lit "<h1>") (lit "</h1>"))
  /\ (~ has_h1 (html article) -> has_title_block (html article) ->
      first_region H2_TITLE_OPEN (lit "</a>")).
Proof.
  cbv beta zeta.
  assert (Hregion : forall opening closing m,
    Re.search_group (delimited_re opening closing false) (html article) = Some m ->
    find_title_match (html article) = Some m ->
    exists pre inner post,
      html article = pre ++ opening ++ inner ++ closing ++ post
      /\ inner <> [] /\ one_line inner
      /\ (forall pre' inner' post',
             html article = pre' ++ opening ++ inner' ++ closing ++ post' ->
             inner' <> [] -> one_line inner' -> length pre <= length pre')
      /\ (forall inner' post',
             inner' <> [] ->
             inner ++ closing ++ post = inner' ++ closing ++ post' ->
             length inner <= length inner')
      /\ title (post_article
           (generate_post find_article_index human_readable_pub_date
              read_complete_file configuration today_strftime format article
              template_path listing))
         = Some (title_of_match (opening ++ inner ++ closing))).
  { intros opening closing m S F. unfold Re.search_group in S.
    destruct (Re.search _ (html article)) as [[k m']|] eqn:E; [|discriminate S].
    injection S as ->.
    destruct (FirstRegion.search_delimited_first _ _ _ _ _ _ E)
      as (pre & inner & post & Es & _ & -> & Hne & Hline & Hfirst & Hshort).
    exists pre, inner, post. repeat split; auto.
    - intros pre' inner' post' Es' Hne' Hl'.
      apply (Hfirst pre' inner' post' Es' Hne'). intros _. exact Hl'.
    - now apply stored_title. }
  split.
  - intros H. apply Delimited.search_delimited in H.
    destruct (Re.search_group _ (html article)) as [m|] eqn:S; [|congruence].
    apply (Hregion _ _ m S). unfold find_title_match.
    change H1_RE with (delimited_re (lit "<h1>") (lit "</h1>") false).
    now rewrite S.
  - intros Hno H. apply Delimited.search_delimited_none in Hno.
    apply Delimited.search_delimited in H.
    destruct (Re.search_group (delimited_re H2_TITLE_OPEN _ _) (html article))
      as [m|] eqn:S; [|congruence].
    apply (Hregion _ _ m S). unfold find_title_match.
    change H1_RE with (delimited_re (lit "<h1>") (lit "</h1>") false).
    rewrite Hno. exact S.
Qed.

(** X10: a title block with an empty address, the form [generate_post]
    itself writes, does not give its text back as the title: from the first
    title block [_ARTICLE_TITLE_TEMPLATE] makes of a text [T] without [<]
    and without double quote, on one line, an article without a level-1
    heading gets the title [<a href="">T]. *)
Theorem title_of_written_block (article : Article) (template_path : str)
  (listing : list Article) (pre T subtitle post : str) :
  html article = pre ++ _ARTICLE_TITLE_TEMPLATE [] T subtitle ++ post ->
  ~ has_h1 (html article) ->
  PyStr.find H2_TITLE_OPEN (html article) = Some (length pre) ->
  one_line T -> ~ In "<"%char T -> ~ In (ascii_of_nat 34) T ->
  title (post_article
           (generate_post find_article_index human_readable_pub_date
              read_complete_file configuration today_strftime format article
              template_path listing))
  = Some (A_OPEN ++ A_CLOSE ++ T).
Proof.
  intros E Hno F Hline HT Hq.
  assert (E' : html article
               = pre ++ H2_TITLE_OPEN ++ A_OPEN ++ [] ++ A_CLOSE ++ T ++ lit "</a>"
                 ++ (lit "<p class=" ++ q "article_subtitle" ++ lit ">" ++ subtitle
                     ++ lit "</p></h2>" ++ post)).
  { rewrite E. f_equal. unfold _ARTICLE_TITLE_TEMPLATE.
    rewrite <- !app_assoc. reflexivity. }
  rewrite E' in F, Hno.
  pose proof (find_title_match_block pre [] T _ Hno F) as M. cbv zeta in M.
  rewrite <- E' in M.
  rewrite (stored_title _ _ _ _ (M ltac:(unfold one_line; tauto) ltac:(tauto) Hline HT)).
  f_equal. now apply title_of_own_block.
Qed.

End FirstHeading.

(** The posts of the site have a level-1 heading each. *)
Lemma title_from_first_heading_witness :
  exists pre inner post,
    html Site.B = pre ++ lit "<h1>" ++ inner ++ lit "</h1>" ++ post
    /\ title (post_article
                (generate_post Site.find_article_index Site.human_readable_pub_date
                   Site.read_complete_file Site.configuration Site.today_strftime
                   Site.format Site.B (lit "template.html") [Site.A]))
       = Some (title_of_match (lit "<h1>" ++ inner ++ lit "</h1>")).
Proof.
  destruct (proj1 (title_from_first_heading Site.find_article_index
              Site.human_readable_pub_date Site.read_complete_file
              Site.configuration Site.today_strftime Site.format
              Site.B (lit "template.html") [Site.A]))
    as (pre & inner & post & E & _ & _ & _ & _ & S).
  - exists [], (lit "Second"), (lit "<p>Intro B.</p><p>More B.</p>").
    repeat split; try discriminate.
    intros _. unfold one_line. simpl. intuition discriminate.
  - now exists pre, inner, post.
Defined.

(** The content [generate_post] made for the post [Second], rendered
    again. *)
Lemma title_of_written_block_witness :
  title (post_article
           (generate_post Site.find_article_index Site.human_readable_pub_date
              Site.read_complete_file Site.configuration Site.today_strftime
              Site.format
              (mkArticle (lit "b.md") (lit "b.html") None
                 (_ARTICLE_TITLE_TEMPLATE [] (lit "Second") (lit "2016-01-02")
                  ++ nl ++ lit "<p>Intro B.</p>") [] None)
              (lit "template.html") [Site.A]))
  = Some (A_OPEN ++ A_CLOSE ++ lit "Second").
Proof.
  apply (title_of_written_block Site.find_article_index
           Site.human_readable_pub_date Site.read_complete_file
           Site.configuration Site.today_strftime Site.format _ _ _
           [] (lit "Second") (lit "2016-01-02") (nl ++ lit "<p>Intro B.</p>")).
  - reflexivity.
  - apply Delimited.search_delimited_none. reflexivity.
  - reflexivity.
  - unfold one_line. simpl. intuition discriminate.
  - simpl. intuition discriminate.
  - simpl. intuition discriminate.
Defined.

(** ** Unwrapping the content section *)

(** A region whose closing marker first occurs at its end is matched
    whole. *)
Lemma match_here_region_first_close (o c : str) (d : bool) (a : ascii)
  (w post : str) :
  c <> [] ->
  Re.cmatch (Re.Dot d) a = true -> forallb (Re.cmatch (Re.Dot d)) w = true ->
  PyStr.find c (w ++ c) = Some (length w) ->
  Re.match_here (delimited_re o c d) (o ++ (a :: w) ++ c ++ post) = Some post.
Proof.
  intros Hc Ca Hw F. unfold delimited_re. cbn [Re.match_here].
  rewrite ReFacts.strip_prefix_app.
  change ((a :: w) ++ c ++ post) with (a :: w ++ c ++ post).
  cbv beta iota. rewrite Ca.
  apply ReFacts.star_lazy_exact; [assumption| |].
  - now rewrite ReFacts.strip_prefix_app.
  - intros w1 w2 -> Hne.
    destruct (Re.strip_prefix c (w2 ++ c ++ post)) as [r|] eqn:S; [|reflexivity].
    exfalso. apply ReFacts.strip_prefix_Some in S.
    apply PyStrFacts.find_Some in F as [_ Hmin].
    apply (Hmin (length w1)).
    + rewrite length_app. destruct w2; [congruence|simpl; lia].
    + rewrite app_assoc in S.
      apply app_eq_app in S as [l [[E1 E2]|[E1 E2]]].
      * exists w1, l. split; [|reflexivity]. now rewrite <- app_assoc, E1.
      * exfalso. apply (f_equal (@length ascii)) in E1.
        rewrite !length_app in E1. destruct w2; [congruence|simpl in E1; lia].
Qed.

(** X11: [preprocess_raw_html] undoes the wrapping of
    [_ARTICLE_CONTENT_TEMPLATE]: on a page whose first [<article>] is
    followed by the content section, it returns the content between its
    two line ends, when the content holds none of the four tags that are
    deleted. *)
Theorem preprocess_unwraps_content (pre content post : str) :
  let body := SECTION_CONTENT_OPEN ++ nl ++ content ++ nl in
  let raw_html :=
    pre ++ lit "<article>" ++ _ARTICLE_CONTENT_TEMPLATE content ++ post in
  PyStr.find (lit "<article>") raw_html = Some (length pre) ->
  ~ occurs (lit "<article>") (body ++ lit "</section>") ->
  PyStr.find (lit "</section>") (body ++ lit "</section>") = Some (length body) ->
  ~ occurs SECTION_MAIN_OPEN body ->
  ~ occurs SECTION_CONTENT_OPEN (nl ++ content ++ nl) ->
  preprocess_raw_html raw_html = Ok (nl ++ content ++ nl).
Proof.
  intros body raw_html Hfirst Hart Hclose Hmain Hsec.
  assert (Eb : _ARTICLE_CONTENT_TEMPLATE content = body ++ lit "</section>").
  { unfold _ARTICLE_CONTENT_TEMPLATE, body, SECTION_CONTENT_OPEN.
    now rewrite <- !app_assoc. }
  assert (Er : raw_html
               = pre ++ (lit "<article>" ++ body ++ lit "</section>") ++ post).
  { unfold raw_html. rewrite Eb. now rewrite <- !app_assoc. }
  assert (Hb : exists w, body = "<"%char :: w) by (eexists; reflexivity).
  destruct Hb as [w Hb].
  assert (M : Re.match_here ARTICLE_RE
                ((lit "<article>" ++ body ++ lit "</section>") ++ post) = Some post).
  { rewrite Hb in Hclose |- *.
    change ARTICLE_RE with (delimited_re (lit "<article>") (lit "</section>") true).
    rewrite <- !app_assoc.
    apply match_here_region_first_close;
      [discriminate|reflexivity|apply Delimited.dot_all|].
    apply PyStrFacts.find_Some in Hclose as [Ho Hmin].
    apply PyStrFacts.find_first.
    - apply (PyStrFacts.occurs_at_S _ "<"%char). exact Ho.
    - intros j Hj Hc. apply (Hmin (S j)); [simpl; lia|].
      now apply PyStrFacts.occurs_at_S. }
  assert (S : Re.search_group ARTICLE_RE raw_html
              = Some (lit "<article>" ++ body ++ lit "</section>")).
  { unfold Re.search_group. rewrite Er.
    rewrite (ReFacts.search_first _ pre _ post M); [reflexivity|].
    intros j Hj. rewrite <- Er.
    apply PyStrFacts.find_Some in Hfirst as [_ Hmin].
    unfold ARTICLE_RE. cbn [Re.match_here].
    destruct (Re.strip_prefix (lit "<article>") _) eqn:P; [|reflexivity].
    exfalso. apply (Hmin j Hj). apply Title.occurs_at_skipn.
    - rewrite Er, length_app. lia.
    - destruct (PyStr.startswith (lit "<article>") _) eqn:B; [reflexivity|].
      apply ReFacts.strip_prefix_None in B. congruence. }
  unfold preprocess_raw_html. rewrite S. f_equal.
  rewrite Rewriting.replace_head by discriminate. cbn [app].
  rewrite (Rewriting.replace_none (lit "<article>"));
    [|discriminate|].
  2:{ destruct (PyStr.find (lit "<article>") (body ++ lit "</section>")) eqn:F;
        [|reflexivity].
      exfalso. apply Hart. apply PyStrFacts.find_occurs. congruence. }
  rewrite (Rewriting.replace_step (lit "</section>")) by discriminate.
  rewrite Hclose. rewrite firstn_prefix.
  rewrite skipn_all2 by (rewrite length_app; lia).
  change (PyStr.replace (lit "</section>") [] []) with (@nil ascii).
  cbn [app]. rewrite app_nil_r.
  fold SECTION_MAIN_OPEN. fold SECTION_CONTENT_OPEN.
  rewrite (Rewriting.replace_none SECTION_MAIN_OPEN); [|discriminate|].
  2:{ destruct (PyStr.find SECTION_MAIN_OPEN body) eqn:F; [|reflexivity].
      exfalso. apply Hmain. apply PyStrFacts.find_occurs. congruence. }
  unfold body. rewrite Rewriting.replace_head by discriminate. cbn [app].
  apply Rewriting.replace_none; [discriminate|].
  destruct (PyStr.find SECTION_CONTENT_OPEN (nl ++ content ++ nl)) eqn:F;
    [|reflexivity].
  exfalso. apply Hsec. apply PyStrFacts.find_occurs. congruence.
Qed.

(** A page around the content of a post. *)
Lemma preprocess_unwraps_content_witness :
  preprocess_raw_html
    (lit "<body>" ++ lit "<article>"
     ++ _ARTICLE_CONTENT_TEMPLATE (lit "<h2>T</h2><p>x</p>")
     ++ lit "</article></body>")
  = Ok (nl ++ lit "<h2>T</h2><p>x</p>" ++ nl).
Proof.
  apply (preprocess_unwraps_content (lit "<body>") (lit "<h2>T</h2><p>x</p>")
           (lit "</article></body>")).
  - reflexivity.
  - intros H. apply PyStrFacts.find_occurs in H. now apply H.
  - reflexivity.
  - intros H. apply PyStrFacts.find_occurs in H. now apply H.
  - intros H. apply PyStrFacts.find_occurs in H. now apply H.
Defined.

(** ** The text of the link to the previous post *)

Lemma link_is_path (p : Article) : link_to p <> NoPrev.
Proof. discriminate. Qed.

Lemma link_text_unrooted (p : Article) :
  rooted (target p) = false ->
  prev_str (link_to p)
  = match Path.components (target p) with
    | [] => lit ".."
    | c :: cs => lit "../" ++ PyStr.join [Path.slash] (c :: cs)
    end.
Proof.
  intros H. unfold link_to, prev_str, Path.truediv.
  rewrite (parse_unrooted _ H). cbn [Path.root Path.parts].
  change (Path.parts (Path.parse (lit "../"))) with [lit ".."].
  change (Path.root (Path.parse (lit "../"))) with (@nil ascii).
  unfold Path.to_str. cbn [Path.root Path.parts app].
  destruct (Path.components (target p)) as [|c cs]; reflexivity.
Qed.

Lemma parse_rooted (t : str) :
  rooted t = true ->
  Path.parse t
  = Path.mk (if length t - length (Path.lstrip_sep t) =? 2
             then [Path.slash; Path.slash] else [Path.slash])
            (Path.components (Path.lstrip_sep t)).
Proof.
  intros H. unfold Path.parse, Path.splitroot.
  destruct t as [|c t]; [discriminate H|].
  cbn [rooted] in H. apply Ascii.eqb_eq in H. subst c.
  pose proof (lstrip_sep_length t) as L.
  assert (E : Path.lstrip_sep (Path.slash :: t) = Path.lstrip_sep t).
  { cbn [Path.lstrip_sep]. now rewrite Ascii.eqb_refl. }
  rewrite E.
  destruct (length (Path.slash :: t) - length (Path.lstrip_sep t))
    as [|[|[|n]]] eqn:D; [cbn [length] in D; lia| | |]; reflexivity.
Qed.

Lemma link_text_rooted (p : Article) :
  rooted (target p) = true ->
  prev_str (link_to p)
  = (if length (target p) - length (Path.lstrip_sep (target p)) =? 2
     then [Path.slash; Path.slash] else [Path.slash])
    ++ PyStr.join [Path.slash] (Path.components (Path.lstrip_sep (target p))).
Proof.
  intros H. unfold link_to, prev_str, Path.truediv.
  rewrite (parse_rooted _ H). cbn [Path.root Path.parts].
  destruct (length (target p) - length (Path.lstrip_sep (target p)) =? 2);
    reflexivity.
Qed.

Section PreviousLinkText.

Variable find_article_index : Article -> list Article -> option nat.

(** C1, as the code has it: in [generate_post], when the lookup reports an
    index inside the listing, the link to the previous post is made to
    entry [i - 1] for an article found at [i > 0] and to the last entry for
    an article not found, and it is the empty string for an article found
    at 0 and whenever the listing is empty.  The link made to an entry is a
    path, whose text is [..] alone or [../] and the components of the
    target joined by slashes when the target does not start with a slash,
    and the target's own path, from its root [/] or [//], when it does. *)
Theorem previous_article_link (article : Article) (listing : list Article) :
  (forall i, find_article_index article listing = Some i -> i < length listing) ->
  let joined (p : Article) (link : PrevLink) :=
    link <> NoPrev
    /\ (rooted (target p) = false ->
        prev_str link
        = match Path.components (target p) with
          | [] => lit ".."
          | c :: cs => lit "../" ++ PyStr.join [Path.slash] (c :: cs)
          end)
    /\ (rooted (target p) = true ->
        prev_str link
        = (if length (target p) - length (Path.lstrip_sep (target p)) =? 2
           then [Path.slash; Path.slash] else [Path.slash])
          ++ PyStr.join [Path.slash]
               (Path.components (Path.lstrip_sep (target p)))) in
  exists previous_article,
    previous_article_of find_article_index article listing = Ok previous_article
    /\ (forall i, find_article_index article listing = Some i -> 0 < i ->
                  exists p, nth_error listing (i - 1) = Some p
                            /\ joined p previous_article)
    /\ (find_article_index article listing = Some 0 ->
        previous_article = NoPrev /\ prev_str previous_article = [])
    /\ (find_article_index article listing = None ->
        forall front p, listing = front ++ [p] -> joined p previous_article)
    /\ (listing = [] ->
        previous_article = NoPrev /\ prev_str previous_article = []).
Proof.
  intros Hrange. cbv beta zeta.
  destruct (previous_article_by_listing find_article_index article listing Hrange)
    as (Hfound & Hzero & Hlast & Hempty).
  assert (Hjoined : forall p,
    link_to p <> NoPrev
    /\ (rooted (target p) = false ->
        prev_str (link_to p)
        = match Path.components (target p) with
          | [] => lit ".."
          | c :: cs => lit "../" ++ PyStr.join [Path.slash] (c :: cs)
          end)
    /\ (rooted (target p) = true ->
        prev_str (link_to p)
        = (if length (target p) - length (Path.lstrip_sep (target p)) =? 2
           then [Path.slash; Path.slash] else [Path.slash])
          ++ PyStr.join [Path.slash]
               (Path.components (Path.lstrip_sep (target p))))).
  { intros p. split; [apply link_is_path|].
    split; [apply link_text_unrooted|apply link_text_rooted]. }
  destruct (previous_article_of find_article_index article listing)
    as [previous_article|e] eqn:P.
  - exists previous_article. split; [reflexivity|].
    split; [|split; [|split]].
    + intros i Hi Hpos. destruct (Hfound i Hi Hpos) as (p & Hp & [= ->]).
      exists p. split; [assumption|apply Hjoined].
    + intros H0. injection (Hzero H0) as ->. split; reflexivity.
    + intros Hn front p E. injection (Hlast Hn front p E) as ->. apply Hjoined.
    + intros E. injection (Hempty E) as ->. split; reflexivity.
  - exfalso. unfold previous_article_of in P.
    destruct (find_article_index article listing) as [i|] eqn:F.
    + specialize (Hrange _ eq_refl).
      destruct (0 <=? Z.of_nat i - 1)%Z eqn:Z0; [|discriminate P].
      apply Z.leb_le in Z0.
      destruct (nth_error listing (Z.to_nat (Z.of_nat i - 1))) eqn:N;
        [discriminate P|].
      apply nth_error_None in N. lia.
    + destruct listing; discriminate P.
Qed.

End PreviousLinkText.

(** C1, as the claim has it: the link to an entry whose target starts with
    a slash is that target's own path, not a path under the parent
    directory. *)
Lemma previous_link_not_under_parent :
  match previous_article_of Site.find_article_index Site.D
          [mkArticle (lit "a.md") (lit "/srv/a.html") None [] [] None] with
  | Ok link => prev_str link
  | Raise _ => []
  end = lit "/srv/a.html"
  /\ PyStr.startswith (lit "..") (lit "/srv/a.html") = false.
Proof.
  split; reflexivity.
Qed.

(** The listing [[A; B; C]] of the site, rendering [B]: the link is
    [../a.html]. *)
Lemma previous_article_link_witness :
  exists previous_article,
    previous_article_of Site.find_article_index Site.B [Site.A; Site.B; Site.C]
    = Ok previous_article
    /\ prev_str previous_article = lit "../a.html".
Proof.
  destruct (previous_article_link Site.find_article_index Site.B
              [Site.A; Site.B; Site.C] (site_lookup_in_range _ _))
    as (previous_article & E & Hfound & _).
  exists previous_article. split; [exact E|].
  destruct (Hfound 1 eq_refl ltac:(lia)) as (p & Hp & _ & Hrel & _).
  simpl in Hp. injection Hp as <-. exact (Hrel eq_refl).
Defined.

(** ** What [preprocess_raw_html] deletes *)

(** [replace] with the empty string deletes the occurrences from left to
    right. *)
Lemma replace_deleted (old : str) (s : str) :
  old <> [] -> deleted old s (PyStr.replace old [] s).
Proof.
  intros Hold. remember (length s) as n eqn:Hn. revert s Hn.
  induction n as [n IH] using lt_wf_ind. intros s Hn.
  rewrite Rewriting.replace_step by assumption.
  destruct (PyStr.find old s) as [k|] eqn:F.
  - destruct (PyStrFacts.find_Some _ _ _ F) as [(a & b & E & Ha) Hmin].
    subst s k. rewrite firstn_prefix.
    rewrite skipn_app, skipn_all2 by lia.
    replace (length a + length old - length a) with (length old) by lia.
    rewrite skipn_app, skipn_all, Nat.sub_diag. cbn [skipn app].
    apply deleted_first; [exact Hmin|].
    apply (IH (length b)); [|reflexivity].
    rewrite Hn, !length_app. destruct old; [congruence|simpl; lia].
  - apply deleted_none. intros H. apply PyStrFacts.find_occurs in H. congruence.
Qed.

(** The text without the occurrences is determined. *)
Lemma deleted_unique (old s r r' : str) :
  deleted old s r -> deleted old s r' -> r = r'.
Proof.
  intros H. revert r'. induction H as [s Hno|a b r Hmin Hb IH]; intros r' H'.
  - inversion H' as [s' Hno' E1 E2|a' b' r'' Hmin' Hb' E1 E2]; [reflexivity|].
    exfalso. apply Hno. subst s. exists (length a'), a', b'. now split.
  - inversion H' as [s' Hno' E1 E2|a' b' r'' Hmin' Hb' E1 E2].
    + exfalso. apply Hno'. exists (length a), a, b. now split.
    + assert (E : a' ++ old ++ b' = a ++ old ++ b) by congruence.
      assert (Hlen : length a = length a').
      { destruct (Nat.lt_trichotomy (length a) (length a')) as [L|[L|L]];
          [exfalso|assumption|exfalso].
        - apply (Hmin' (length a) L). exists a, b. now split.
        - apply (Hmin (length a') L). exists a', b'. now split. }
      assert (Ea : a' = a).
      { pose proof (f_equal (firstn (length a')) E) as Ef.
        rewrite firstn_prefix in Ef. rewrite <- Hlen in Ef.
        now rewrite firstn_prefix in Ef. }
      subst a'. apply app_inv_head in E. apply app_inv_head in E. subst b'.
      f_equal. now apply IH.
Qed.

(** C10, as the code has it: [preprocess_raw_html] returns exactly on the
    texts that hold [<article>], then at least one character (a newline
    counts), then [</section>].  It takes the first region of that form,
    the shortest that starts there, and returns it after deleting, one
    text after the other, the occurrences from left to right of
    [<article>], of [</section>], and of the opening tags of the sections
    [main_content] and [article_content]; what a deletion puts together
    stays.  So when the first [<article>] of the text is followed by a
    text that holds none of the four and then by [</section>], that text is
    returned.  On a text without such a region the search gives [None] and
    the call of [group] raises [AttributeError]. *)
Theorem preprocess_raw_html_deletes (raw_html : str) :
  (delimited (lit "<article>") (lit "</section>") true raw_html ->
   exists pre inner post r1 r2 r3 r4,
     raw_html = pre ++ lit "<article>" ++ inner ++ lit "</section>" ++ post
     /\ inner <> []
     /\ (forall pre' inner' post',
            raw_html = pre' ++ lit "<article>" ++ inner' ++ lit "</section>" ++ post' ->
            inner' <> [] -> length pre <= length pre')
     /\ (forall inner' post',
            inner' <> [] ->
            inner ++ lit "</section>" ++ post = inner' ++ lit "</section>" ++ post' ->
            length inner <= length inner')
     /\ deleted (lit "<article>") (lit "<article>" ++ inner ++ lit "</section>") r1
     /\ deleted (lit "</section>") r1 r2
     /\ deleted SECTION_MAIN_OPEN r2 r3
     /\ deleted SECTION_CONTENT_OPEN r3 r4
     /\ preprocess_raw_html raw_html = Ok r4)
  /\ (forall pre inner post,
         raw_html = pre ++ lit "<article>" ++ inner ++ lit "</section>" ++ post ->
         inner <> [] ->
         PyStr.find (lit "<article>") raw_html = Some (length pre) ->
         PyStr.find (lit "</section>") (inner ++ lit "</section>")
         = Some (length inner) ->
         ~ occurs (lit "<article>") (inner ++ lit "</section>") ->
         ~ occurs SECTION_MAIN_OPEN inner ->
         ~ occurs SECTION_CONTENT_OPEN inner ->
         preprocess_raw_html raw_html = Ok inner)
  /\ (~ delimited (lit "<article>") (lit "</section>") true raw_html ->
      preprocess_raw_html raw_html = Raise AttributeError).
Proof.
  destruct (preprocess_raw_html_spec raw_html) as [Hsome Hnone].
  split; [|split; [|exact Hnone]].
  - intros Hd.
    destruct (Hsome Hd) as (pre & inner & post & E & Hne & Hfirst & Hshort & R).
    exists pre, inner, post. do 4 eexists.
    repeat (split; [eassumption|]).
    split; [apply replace_deleted; discriminate|].
    split; [apply replace_deleted; discriminate|].
    split; [apply replace_deleted; discriminate|].
    split; [apply replace_deleted; discriminate|].
    exact R.
  - intros pre inner post E Hne Hfirst Hclose Hart Hmain Hsec.
    destruct inner as [|a w]; [congruence|].
    assert (M : Re.match_here ARTICLE_RE
                  ((lit "<article>" ++ (a :: w) ++ lit "</section>") ++ post)
                = Some post).
    { change ARTICLE_RE with (delimited_re (lit "<article>") (lit "</section>") true).
      rewrite <- !app_assoc.
      apply match_here_region_first_close;
        [discriminate|reflexivity|apply Delimited.dot_all|].
      apply PyStrFacts.find_Some in Hclose as [Ho Hmin].
      apply PyStrFacts.find_first.
      - apply (PyStrFacts.occurs_at_S _ a). exact Ho.
      - intros j Hj Hc. apply (Hmin (S j)); [simpl; lia|].
        now apply PyStrFacts.occurs_at_S. }
    assert (Er : raw_html
                 = pre ++ (lit "<article>" ++ (a :: w) ++ lit "</section>") ++ post).
    { rewrite E. f_equal. now rewrite <- !app_assoc. }
    assert (S : Re.search_group ARTICLE_RE raw_html
                = Some (lit "<article>" ++ (a :: w) ++ lit "</section>")).
    { unfold Re.search_group. rewrite Er.
      rewrite (ReFacts.search_first _ pre _ post M); [reflexivity|].
      intros j Hj. rewrite <- Er.
      apply PyStrFacts.find_Some in Hfirst as [_ Hmin].
      unfold ARTICLE_RE. cbn [Re.match_here].
      destruct (Re.strip_prefix (lit "<article>") _) eqn:P; [|reflexivity].
      exfalso. apply (Hmin j Hj). apply Title.occurs_at_skipn.
      - rewrite Er, length_app. lia.
      - destruct (PyStr.startswith (lit "<article>") _) eqn:B; [reflexivity|].
        apply ReFacts.strip_prefix_None in B. congruence. }
    assert (Hfind : forall old s, ~ occurs old s -> PyStr.find old s = None).
    { intros old s H. destruct (PyStr.find old s) eqn:F; [|reflexivity].
      exfalso. apply H. apply PyStrFacts.find_occurs. congruence. }
    unfold preprocess_raw_html. rewrite S. f_equal.
    rewrite Rewriting.replace_head by discriminate. rewrite app_nil_l.
    rewrite (Rewriting.replace_none (lit "<article>")) by (discriminate || auto).
    rewrite (Rewriting.replace_step (lit "</section>")) by discriminate.
    rewrite Hclose. rewrite firstn_prefix.
    rewrite skipn_all2 by (rewrite length_app; lia).
    change (PyStr.replace (lit "</section>") [] []) with (@nil ascii).
    rewrite app_nil_l, app_nil_r.
    fold SECTION_MAIN_OPEN. fold SECTION_CONTENT_OPEN.
    rewrite (Rewriting.replace_none SECTION_MAIN_OPEN) by (discriminate || auto).
    apply Rewriting.replace_none; [discriminate|auto].
Qed.

(** C10, as the claim has it: the text returned for
    [<article>x<arti<article>cle></section>] holds [<article>]. *)
Lemma preprocess_result_may_hold_tag :
  preprocess_raw_html (lit "<article>x<arti<article>cle></section>")
  = Ok (lit "x<article>")
  /\ PyStr.find (lit "<article>") (lit "x<article>") = Some 1.
Proof.
  split; reflexivity.
Qed.

(** A page whose article is one paragraph. *)
Lemma preprocess_raw_html_deletes_witness :
  preprocess_raw_html (lit "<body><article><p>x</p></section></body>")
  = Ok (lit "<p>x</p>").
Proof.
  apply (proj1 (proj2 (preprocess_raw_html_deletes
                         (lit "<body><article><p>x</p></section></body>")))
           (lit "<body>") (lit "<p>x</p>") (lit "</body>")).
  - reflexivity.
  - discriminate.
  - reflexivity.
  - reflexivity.
  - intros H. apply PyStrFacts.find_occurs in H. now apply H.
  - intros H. apply PyStrFacts.find_occurs in H. now apply H.
  - intros H. apply PyStrFacts.find_occurs in H. now apply H.
Defined.
